(** * KeyHandler: the keyboard / mouse shortcut registry of the
      YouTube Speed Control extension.

    A shallow embedding of [key-handler.js]: the combo normaliser
    ([parseCombo], [normalizeKey], [getComboFromEvent]), the binding
    registry ([bind], [unbind], [unbindAll]) and the three document
    listeners ([handleKeyEvent], [handleMouseEvent] and the anonymous
    [mousedown] listener).

    The table [KEY_MAP] of key codes is never read by the code and is
    left out.

    Two callers of the registry are embedded as well: the function
    [initializeShortcuts] of [content.js] (module [Content]) and, from
    the script of the settings page, [formatKeyCombination], the
    listeners of [handleKeyBinding] that record a shortcut, and the
    calls of [handleKeyBinding] the clicks on the shortcut buttons make
    (module [Settings]).  The speed arithmetic of [content.js] and the
    slider of the settings page work on floating-point numbers and are
    left out.

    Modelling conventions.
    - A JavaScript string is a [string] of code units below 256 (the
      ASCII range and the Latin-1 supplement).  On such strings
      [toLowerCase] and [trim] are those of the language: the capital
      letters of both ranges are lowered, and the no-break space is
      white space.  Strings with code units from 256 on are not
      represented.
    - A JavaScript number is [NaN] or an integer [Num z]; binding ids are
      integers (clock reading plus a random integer below 1000).  The
      vertical delta of a wheel event is a rational, only its sign is
      inspected.
    - Callbacks are opaque tokens of a type [Callback]; [call f ev] is
      the value a callback returns.  Callbacks do not re-enter the
      registry while a dispatch is running (those of [content.js] change
      the playback rate and return [false]).
    - What a listener does to the outside world is a trace of [action]s:
      callback invocations and calls of [preventDefault] and
      [stopPropagation] on the event, in program order. *)

From Stdlib Require Import List String Ascii Bool ZArith QArith Lia DecimalString.
From Stdlib Require DecimalPos DecimalZ.
Import ListNotations.

#[local] Open Scope Z_scope.
#[local] Open Scope string_scope.
#[local] Open Scope list_scope.

Module KeyHandler.

(** ** JavaScript strings *)

(** The code units below 256 that [toLowerCase] changes: the letters
    [A] to [Z] and the capital letters of the Latin-1 supplement, U+00C0
    to U+00DE without the multiplication sign U+00D7.  The lowercase
    form is 32 code units further. *)
Definition isUpper (c : ascii) : bool :=
  ((65 <=? N_of_ascii c) && (N_of_ascii c <=? 90)
   || (192 <=? N_of_ascii c) && (N_of_ascii c <=? 222)
      && negb (N_of_ascii c =? 215))%N.

Definition lowerChar (c : ascii) : ascii :=
  if isUpper c then ascii_of_N (N_of_ascii c + 32) else c.

(** [String.prototype.toLowerCase]. *)
Fixpoint toLowerCase (s : string) : string :=
  match s with
  | EmptyString => EmptyString
  | String c r => String (lowerChar c) (toLowerCase r)
  end.

(** The white space of the ASCII range: tab, line feed, vertical tab,
    form feed, carriage return and space. *)
Definition isSpace (c : ascii) : bool :=
  ((9 <=? N_of_ascii c) && (N_of_ascii c <=? 13) || (N_of_ascii c =? 32))%N.

(** The code units below 256 that [trim] removes: the white space and
    line terminators of the language, which are the six above and the
    no-break space U+00A0. *)
Definition isWhiteSpace (c : ascii) : bool :=
  (isSpace c || (N_of_ascii c =? 160))%N.

Fixpoint trimStart (s : string) : string :=
  match s with
  | EmptyString => EmptyString
  | String c r => if isWhiteSpace c then trimStart r else s
  end.

Fixpoint trimEnd (s : string) : string :=
  match s with
  | EmptyString => EmptyString
  | String c r =>
      match trimEnd r with
      | EmptyString => if isWhiteSpace c then EmptyString else String c EmptyString
      | r' => String c r'
      end
  end.

(** [String.prototype.trim]. *)
Definition trim (s : string) : string := trimEnd (trimStart s).

(** [s.split('+')]: never empty, [""] splits into [[""]]. *)
Fixpoint split_plus (s : string) : list string :=
  match s with
  | EmptyString => [EmptyString]
  | String c r =>
      if Ascii.eqb c "+" then EmptyString :: split_plus r
      else match split_plus r with
           | h :: t => String c h :: t
           | [] => [String c EmptyString]
           end
  end.

(** [keys.join('+')]. *)
Fixpoint join_plus (l : list string) : string :=
  match l with
  | [] => EmptyString
  | [x] => x
  | x :: r => (x ++ "+" ++ join_plus r)%string
  end.

(** Decimal rendering of an integer, as string concatenation with a
    number produces it. *)
Definition numberToString (z : Z) : string :=
  NilZero.string_of_int (Z.to_int z).

(** ** JavaScript values *)

Inductive number : Type :=
| NaN
| Num (z : Z).

Inductive error : Type :=
| TypeError.

(** Completion of a call: a normal return or a thrown exception. *)
Inductive completion (A : Type) : Type :=
| Return (a : A)
| Throw (e : error).
Arguments Return {A} a.
Arguments Throw {A} e.

(** ** Events *)

Inductive event_type : Type := keydown | keyup | wheel | mousedown.

Record event : Type := {
  type : event_type;
  shiftKey : bool;
  ctrlKey : bool;
  altKey : bool;
  metaKey : bool;
  key : string;
  deltaY : Q;
  button : Z
}.

Record ModifierState : Type := {
  shift : bool;
  ctrl : bool;
  alt : bool;
  meta : bool
}.

(** [deltaY < 0]. *)
Definition negative (q : Q) : bool := (Qnum q <? 0)%Z.

(** ** The normaliser *)

Definition normalizeKey (key : string) : string :=
  if key =? "control" then "ctrl"
  else if (key =? "command") || (key =? "meta") then "cmd"
  else if key =? "option" then "alt"
  else if key =? ">" then "."
  else if key =? "<" then ","
  else if key =? " " then "space"
  else toLowerCase key.

(** The modifier tokens pushed first, in the fixed order shift, ctrl,
    alt, cmd. *)
Definition modifierKeys (ev : event) : list string :=
  (if shiftKey ev then ["shift"] else []) ++
  (if ctrlKey ev then ["ctrl"] else []) ++
  (if altKey ev then ["alt"] else []) ++
  (if metaKey ev then ["cmd"] else []).

Definition isBareModifier (key : string) : bool :=
  (key =? "shift") || (key =? "control") || (key =? "alt") || (key =? "meta").

Definition getComboFromEvent (ev : event) : string :=
  let keys := modifierKeys ev in
  match type ev with
  | wheel =>
      join_plus (keys ++ [if negative (deltaY ev) then "wheel_up" else "wheel_down"])
  | mousedown =>
      if (button ev =? 1)%Z then join_plus (keys ++ ["middle_click"])
      else join_plus (keys ++ [("mouse" ++ numberToString (button ev + 1))%string])
  | _ =>
      let key := toLowerCase (key ev) in
      if isBareModifier key then ""
      else join_plus (keys ++ [normalizeKey key])
  end.

(** ** The registry, over an abstract type of callbacks *)

Section Registry.

Variable Callback : Type.

(** The values the registry is handed as arguments and callbacks
    return: the primitive values, the functions, and [VObject], which
    stands for an object that has no method [toLowerCase] (an object
    literal, an array: what the extension storage can hold besides
    primitive values).  Neither has a function such a method.  Objects
    that do carry one, the wrapper objects made by [new String] first of
    all, are not represented: [bind] would store such an object as the
    combo of a binding, and [combo] below is a string. *)
Inductive value : Type :=
| VUndefined
| VNull
| VBoolean (b : bool)
| VNumber (n : number)
| VString (s : string)
| VFunction (f : Callback)
| VObject.

(** [call f ev] is the value the callback [f] returns when it is
    invoked with the event [ev]. *)
Variable call : Callback -> event -> value.

(** [!v] is [negb (truthy v)]. *)
Definition truthy (v : value) : bool :=
  match v with
  | VUndefined | VNull => false
  | VBoolean b => b
  | VNumber NaN => false
  | VNumber (Num z) => negb (z =? 0)%Z
  | VString s => negb (s =? "")
  | VFunction _ | VObject => true
  end.

(** [typeof v === 'function']. *)
Definition isFunction (v : value) : bool :=
  match v with VFunction _ => true | _ => false end.

(** [v === false]. *)
Definition isFalse (v : value) : bool :=
  match v with VBoolean false => true | _ => false end.

Record binding : Type := {
  id : Z;
  keys : list string;
  combo : string;
  callback : Callback
}.

Record state : Type := {
  bindings : list binding;
  modifierState : ModifierState
}.

Definition initial : state :=
  {| bindings := [];
     modifierState := {| shift := false; ctrl := false; alt := false; meta := false |} |}.

Definition setBindings (bs : list binding) (st : state) : state :=
  {| bindings := bs; modifierState := modifierState st |}.

(** [parseCombo]: a falsy argument gives [[]].  Of the values
    represented here only a string has a method [toLowerCase]: on a
    truthy number, on [true], on a function and on an object without
    that method the call [combo.toLowerCase()] raises a [TypeError]. *)
Definition parseCombo (combo : value) : completion (list string) :=
  if negb (truthy combo) then Return []
  else match combo with
       | VString s => Return (map trim (split_plus (toLowerCase s)))
       | _ => Throw TypeError
       end.

(** The sentinel [bind] returns for rejected arguments. *)
Definition failure : Z := -1.

(** [bind(combo, callback)].  [now] is the reading of [Date.now()] and
    [rnd] the value of [Math.floor(Math.random() * 1000)].  The result
    is the completion of the call and the state it leaves behind. *)
Definition bind (now rnd : Z) (combo cb : value) (st : state)
  : completion Z * state :=
  match cb with
  | VFunction f =>
      if negb (truthy combo) then (Return failure, st)
      else
        let id := now + rnd in
        match parseCombo combo with
        | Throw e => (Throw e, st)
        | Return keys =>
            match combo with
            | VString s =>
                (Return id,
                 setBindings
                   (bindings st ++
                      [{| id := id; keys := keys; combo := s; callback := f |}])
                   st)
            | _ => (Throw TypeError, st) (* not reached: [parseCombo] has raised *)
            end
        end
  | _ => (Return failure, st)
  end.

(** [binding.id === v]. *)
Definition idEquals (b : binding) (v : value) : bool :=
  match v with
  | VNumber (Num z) => (id b =? z)%Z
  | _ => false
  end.

(** [binding.combo === v]. *)
Definition comboEquals (b : binding) (v : value) : bool :=
  match v with
  | VString s => combo b =? s
  | _ => false
  end.

(** [bindings.findIndex(p)], [None] for [-1]. *)
Fixpoint findIndex (p : binding -> bool) (bs : list binding) : option nat :=
  match bs with
  | [] => None
  | b :: r => if p b then Some O
              else match findIndex p r with
                   | Some i => Some (S i)
                   | None => None
                   end
  end.

(** [bindings.splice(i, 1)]. *)
Definition splice1 (i : nat) (bs : list binding) : list binding :=
  firstn i bs ++ skipn (S i) bs.

(** The loop [for (let i = n - 1; i >= 0; i--)] of [unbind]. *)
Fixpoint unbindLoop (n : nat) (v : value) (bs : list binding) (found : bool)
  : bool * list binding :=
  match n with
  | O => (found, bs)
  | S i =>
      match nth_error bs i with
      | Some b =>
          if comboEquals b v then unbindLoop i v (splice1 i bs) true
          else unbindLoop i v bs found
      | None => unbindLoop i v bs found
      end
  end.

Definition unbind (idOrCombo : value) (st : state) : bool * state :=
  if negb (truthy idOrCombo) then (false, st)
  else match idOrCombo with
       | VNumber _ =>
           match findIndex (fun b => idEquals b idOrCombo) (bindings st) with
           | Some index => (true, setBindings (splice1 index (bindings st)) st)
           | None => (false, st)
           end
       | _ =>
           let '(found, bs) :=
             unbindLoop (List.length (bindings st)) idOrCombo (bindings st) false in
           (found, setBindings bs st)
       end.

Definition unbindAll (st : state) : state := setBindings [] st.

(** ** Dispatch *)

Inductive action : Type :=
| Invoke (b : binding)
| PreventDefault
| StopPropagation.

Definition updateModifiers (ev : event) (m : ModifierState) : ModifierState :=
  match type ev with
  | keydown =>
      if key ev =? "Shift" then {| shift := true; ctrl := ctrl m; alt := alt m; meta := meta m |}
      else if key ev =? "Control" then {| shift := shift m; ctrl := true; alt := alt m; meta := meta m |}
      else if key ev =? "Alt" then {| shift := shift m; ctrl := ctrl m; alt := true; meta := meta m |}
      else if key ev =? "Meta" then {| shift := shift m; ctrl := ctrl m; alt := alt m; meta := true |}
      else m
  | keyup =>
      if key ev =? "Shift" then {| shift := false; ctrl := ctrl m; alt := alt m; meta := meta m |}
      else if key ev =? "Control" then {| shift := shift m; ctrl := false; alt := alt m; meta := meta m |}
      else if key ev =? "Alt" then {| shift := shift m; ctrl := ctrl m; alt := false; meta := meta m |}
      else if key ev =? "Meta" then {| shift := shift m; ctrl := ctrl m; alt := alt m; meta := false |}
      else m
  | _ => m
  end.

(** The loop of [handleKeyEvent]: every matching binding is called, and
    a result that is [false] prevents the default and stops
    propagation. *)
Fixpoint keyLoop (ev : event) (c : string) (bs : list binding) : list action :=
  match bs with
  | [] => []
  | b :: r =>
      if combo b =? c then
        Invoke b ::
        (if isFalse (call (callback b) ev) then [PreventDefault; StopPropagation] else [])
        ++ keyLoop ev c r
      else keyLoop ev c r
  end.

Definition handleKeyEvent (ev : event) (st : state) : state * list action :=
  let st' := {| bindings := bindings st;
                modifierState := updateModifiers ev (modifierState st) |} in
  match type ev with
  | keydown =>
      let c := getComboFromEvent ev in
      if c =? "" then (st', [])
      else (st', keyLoop ev c (bindings st))
  | _ => (st', [])
  end.

(** The loop of [handleMouseEvent]: it returns after the first matching
    binding has been called. *)
Fixpoint mouseLoop (c : string) (bs : list binding) : list action :=
  match bs with
  | [] => []
  | b :: r => if combo b =? c then [Invoke b] else mouseLoop c r
  end.

Definition handleMouseEvent (ev : event) (st : state) : state * list action :=
  let c := getComboFromEvent ev in
  if c =? "" then (st, [])
  else (st, mouseLoop c (bindings st)).

(** The first loop of the [mousedown] listener. *)
Fixpoint comboBound (c : string) (bs : list binding) : bool :=
  match bs with
  | [] => false
  | b :: r => if combo b =? c then true else comboBound c r
  end.

Definition mousedownListener (ev : event) (st : state) : state * list action :=
  if negb (button ev =? 0)%Z then
    let c := getComboFromEvent ev in
    if comboBound c (bindings st) then
      let '(st', tr) := handleMouseEvent ev st in
      (st', PreventDefault :: StopPropagation :: tr)
    else (st, [])
  else (st, []).

(** The listeners installed on [document], by event type. *)
Definition dispatch (ev : event) (st : state) : state * list action :=
  match type ev with
  | keydown | keyup => handleKeyEvent ev st
  | wheel => handleMouseEvent ev st
  | mousedown => mousedownListener ev st
  end.

(** The bindings whose callback a trace invokes, in order. *)
Fixpoint invoked (tr : list action) : list binding :=
  match tr with
  | [] => []
  | Invoke b :: r => b :: invoked r
  | _ :: r => invoked r
  end.

Definition prevented (tr : list action) : bool :=
  existsb (fun a => match a with PreventDefault => true | _ => false end) tr.

Definition stopped (tr : list action) : bool :=
  existsb (fun a => match a with StopPropagation => true | _ => false end) tr.

End Registry.

Arguments VUndefined {Callback}.
Arguments VNull {Callback}.
Arguments VBoolean {Callback} b.
Arguments VNumber {Callback} n.
Arguments VString {Callback} s.
Arguments VFunction {Callback} f.
Arguments VObject {Callback}.
Arguments truthy {Callback} v.
Arguments isFunction {Callback} v.
Arguments isFalse {Callback} v.
Arguments Build_binding {Callback} id keys combo callback.
Arguments id {Callback} b.
Arguments keys {Callback} b.
Arguments combo {Callback} b.
Arguments callback {Callback} b.
Arguments Build_state {Callback} bindings modifierState.
Arguments bindings {Callback} s.
Arguments modifierState {Callback} s.
Arguments initial {Callback}.
Arguments setBindings {Callback} bs st.
Arguments parseCombo {Callback} combo.
Arguments bind {Callback} now rnd combo cb st.
Arguments idEquals {Callback} b v.
Arguments comboEquals {Callback} b v.
Arguments findIndex {Callback} p bs.
Arguments splice1 {Callback} i bs.
Arguments unbindLoop {Callback} n v bs found.
Arguments unbind {Callback} idOrCombo st.
Arguments unbindAll {Callback} st.
Arguments Invoke {Callback} b.
Arguments PreventDefault {Callback}.
Arguments StopPropagation {Callback}.
Arguments keyLoop {Callback} call ev c bs.
Arguments handleKeyEvent {Callback} call ev st.
Arguments mouseLoop {Callback} c bs.
Arguments handleMouseEvent {Callback} ev st.
Arguments comboBound {Callback} c bs.
Arguments mousedownListener {Callback} ev st.
Arguments dispatch {Callback} call ev st.
Arguments invoked {Callback} tr.
Arguments prevented {Callback} tr.
Arguments stopped {Callback} tr.

(** ** Vocabulary of the statements *)

(** Some code unit of [s] satisfies [p]. *)
Fixpoint anyChar (p : ascii -> bool) (s : string) : bool :=
  match s with
  | EmptyString => false
  | String c r => p c || anyChar p r
  end.

Definition isAngle (c : ascii) : bool := Ascii.eqb c ">" || Ascii.eqb c "<".

Definition isDigitOrMinus (c : ascii) : bool :=
  ((48 <=? N_of_ascii c) && (N_of_ascii c <=? 57) || (N_of_ascii c =? 45))%N.

Definition hasUpper (s : string) : bool := anyChar isUpper s.
Definition hasSpace (s : string) : bool := anyChar isSpace s.
Definition hasAngle (s : string) : bool := anyChar isAngle s.

(** White space directly before or after a ["+"]. *)
Fixpoint spaceAroundPlus (s : string) : bool :=
  match s with
  | String a (String b _ as r) =>
      (isSpace a && Ascii.eqb b "+") || (Ascii.eqb a "+" && isSpace b)
      || spaceAroundPlus r
  | _ => false
  end.

(** The modifier prefix of a combo: one token and a ["+"] per modifier
    flag of the event, in the order shift, ctrl, alt, cmd. *)
Definition modifierPrefix (ev : event) : string :=
  ((if shiftKey ev then "shift+" else "") ++
   (if ctrlKey ev then "ctrl+" else "") ++
   (if altKey ev then "alt+" else "") ++
   (if metaKey ev then "cmd+" else ""))%string.

Definition sameModifiers (e1 e2 : event) : Prop :=
  shiftKey e1 = shiftKey e2 /\ ctrlKey e1 = ctrlKey e2 /\
  altKey e1 = altKey e2 /\ metaKey e1 = metaKey e2.

(** Keys that name the same physical input. *)
Inductive alias : string -> string -> Prop :=
| alias_greater : alias ">" "."
| alias_less : alias "<" ","
| alias_space : alias " " "space"
| alias_sym k1 k2 : alias k1 k2 -> alias k2 k1.

(** The [key] values a bare modifier press carries, lowercased. *)
Definition bareModifiers : list string := ["shift"; "control"; "alt"; "meta"].

(** A key that is one of the alias keys [" "], [">"], ["<"] itself, or
    holds no white space and no angle bracket. *)
Definition plainKey (k : string) : bool :=
  (k =? " ") || (k =? ">") || (k =? "<")
  || negb (hasSpace k || hasAngle k).

(** An event whose combo, if it is a key press, comes from a plain key. *)
Definition plainEvent (ev : event) : bool :=
  match type ev with
  | keydown | keyup => plainKey (key ev)
  | _ => true
  end.

Definition keyEvent (sh ct al me : bool) (k : string) : event :=
  {| type := keydown; shiftKey := sh; ctrlKey := ct; altKey := al; metaKey := me;
     key := k; deltaY := 0%Q; button := 0 |}.

Definition wheelEvent (sh ct al me : bool) (dy : Q) : event :=
  {| type := wheel; shiftKey := sh; ctrlKey := ct; altKey := al; metaKey := me;
     key := ""; deltaY := dy; button := 0 |}.

Definition mouseEvent (sh ct al me : bool) (b : Z) : event :=
  {| type := mousedown; shiftKey := sh; ctrlKey := ct; altKey := al; metaKey := me;
     key := ""; deltaY := 0%Q; button := b |}.

Section Vocabulary.

Context {Callback : Type}.
Variable call : Callback -> event -> value Callback.

Definition matches (c : string) (b : binding Callback) : bool := combo b =? c.

(** What [handleKeyEvent] does for one matching binding. *)
Definition keyActions (ev : event) (b : binding Callback) : list (action Callback) :=
  Invoke b ::
  (if isFalse (call (callback b) ev) then [PreventDefault; StopPropagation] else []).

(** Every stored binding has a non-zero id and a non-empty combo. *)
Definition wellFormed (st : state Callback) : Prop :=
  Forall (fun b => id b <> 0 /\ combo b <> "") (bindings st).

(** The registry states the public interface and the listeners can
    produce, with clock readings after the epoch. *)
Inductive reachable : state Callback -> Prop :=
| reach_initial : reachable initial
| reach_bind st now rnd c cb :
    reachable st -> 0 < now -> 0 <= rnd < 1000 ->
    reachable (snd (bind now rnd c cb st))
| reach_unbind st v : reachable st -> reachable (snd (unbind v st))
| reach_unbindAll st : reachable st -> reachable (unbindAll st)
| reach_dispatch st ev : reachable st -> reachable (fst (dispatch call ev st)).

(** Runs of the registry in which [bind] is not called. *)
Inductive withoutBind : state Callback -> state Callback -> Prop :=
| nb_refl st : withoutBind st st
| nb_unbind st st' v : withoutBind st st' -> withoutBind st (snd (unbind v st'))
| nb_unbindAll st st' : withoutBind st st' -> withoutBind st (unbindAll st')
| nb_dispatch st st' ev :
    withoutBind st st' -> withoutBind st (fst (dispatch call ev st')).

(** The same registry with the [keys] field of every binding replaced. *)
Definition rekeyBinding (g : list string -> list string) (b : binding Callback)
  : binding Callback :=
  {| id := id b; keys := g (keys b); combo := combo b; callback := callback b |}.

Definition rekey (g : list string -> list string) (st : state Callback)
  : state Callback :=
  {| bindings := map (rekeyBinding g) (bindings st);
     modifierState := modifierState st |}.

Definition rekeyAction (g : list string -> list string) (a : action Callback)
  : action Callback :=
  match a with
  | Invoke b => Invoke (rekeyBinding g b)
  | PreventDefault => PreventDefault
  | StopPropagation => StopPropagation
  end.

End Vocabulary.

(** Callbacks of the examples are named by strings and, like those of
    [content.js], return [false]. *)
Definition returnsFalse (f : string) (ev : event) : value string := VBoolean false.

(** Callbacks of the examples that return nothing. *)
Definition returnsUndefined (f : string) (ev : event) : value string := VUndefined.

Definition mkBinding (i : Z) (c : string) (f : string) : binding string :=
  {| id := i; keys := map trim (split_plus (toLowerCase c)); combo := c; callback := f |}.

Definition registryOf (bs : list (binding string)) : state string :=
  setBindings bs initial.

(** A clock reading and a random integer for the examples. *)
Definition clock : Z := 1700000000000.
Definition dice : Z := 417.

(** Events of the examples: no modifier, or shift only. *)
Definition press (k : string) : event := keyEvent false false false false k.
Definition shiftPress (k : string) : event := keyEvent true false false false k.
Definition scroll (dy : Q) : event := wheelEvent false false false false dy.
Definition click (b : Z) : event := mouseEvent false false false false b.

(** A registry in which three combos are bound twice. *)
Definition increaseUp : binding string := mkBinding 1 "wheel_up" "increase".
Definition announceUp : binding string := mkBinding 2 "wheel_up" "announce".
Definition increaseRight : binding string := mkBinding 3 "mouse3" "increase".
Definition announceRight : binding string := mkBinding 4 "mouse3" "announce".
Definition increaseA : binding string := mkBinding 5 "a" "increase".
Definition announceA : binding string := mkBinding 6 "a" "announce".
Definition doublyBound : state string :=
  registryOf [increaseUp; announceUp; increaseRight; announceRight;
              increaseA; announceA].

(** Bindings stored under strings that are not canonical combos. *)
Definition spaced : binding string := mkBinding 7 "shift+ a" "increase".
Definition angled : binding string := mkBinding 8 "a>" "decrease".
Definition upperCased : binding string := mkBinding 9 "Shift+A" "increase".
Definition shiftGreater : binding string := mkBinding 10 "shift+>" "decrease".
Definition offCanonical : state string :=
  registryOf [spaced; angled; upperCased; shiftGreater].

(** Shortcuts as [content.js] binds them, the reset combo set to the
    combo of the increase shortcut. *)
Definition increase : binding string := mkBinding 11 "shift+." "increase".
Definition decrease : binding string := mkBinding 12 "shift+," "decrease".
Definition reset : binding string := mkBinding 13 "shift+." "reset".
Definition shortcuts : state string := registryOf [increase; decrease; reset].

(** Shortcuts on a key, the wheel and the middle button. *)
Definition pointerShortcuts : state string :=
  registryOf [increase; mkBinding 14 "wheel_up" "increase";
              mkBinding 15 "middle_click" "reset"].

(** Bindings stored under the names of modifier keys. *)
Definition modifierNamed : state string :=
  registryOf [mkBinding 16 "shift" "increase"; mkBinding 17 "shift+shift" "decrease"].

(** ** [content.js]: binding the shortcuts *)

Module Content.

(** The three callbacks [initializeShortcuts] binds.  Each one calls
    [changeSpeed] on the video and returns [false]. *)
Inductive speedAction : Type := IncreaseSpeed | DecreaseSpeed | ResetSpeed.

Definition speedCall (a : speedAction) (ev : event) : value speedAction :=
  VBoolean false.

(** The shortcut entries of the stored settings. *)
Record settings : Type := {
  increaseSpeedKey : value speedAction;
  decreaseSpeedKey : value speedAction;
  resetSpeedKey : value speedAction
}.

Definition DEFAULT_SETTINGS : settings :=
  {| increaseSpeedKey := VString "shift+.";
     decreaseSpeedKey := VString "shift+,";
     resetSpeedKey := VString "shift+?" |}.

(** The clock reading and the random integer one call of [bind] draws. *)
Definition stamp : Type := (Z * Z)%type.

(** The function [initializeShortcuts] runs once the settings have been
    read from storage.  [video] tells whether the page has a video
    element.  An exception raised by [bind] rejects the promise and is
    logged by the [catch] handler; the registry stays as the exception
    found it. *)
Definition initializeShortcuts (video : bool) (s : settings) (t1 t2 t3 : stamp)
  (st : state speedAction) : completion unit * state speedAction :=
  if negb video then (Return tt, st)
  else
    let st0 := unbindAll st in
    match bind (fst t1) (snd t1) (increaseSpeedKey s) (VFunction IncreaseSpeed) st0 with
    | (Throw e, st1) => (Throw e, st1)
    | (Return _, st1) =>
        match bind (fst t2) (snd t2) (decreaseSpeedKey s) (VFunction DecreaseSpeed) st1 with
        | (Throw e, st2) => (Throw e, st2)
        | (Return _, st2) =>
            match bind (fst t3) (snd t3) (resetSpeedKey s) (VFunction ResetSpeed) st2 with
            | (Throw e, st3) => (Throw e, st3)
            | (Return _, st3) => (Return tt, st3)
            end
        end
    end.

End Content.

(** ** The settings page: displaying and recording a shortcut *)

Module Settings.

(** The code units below 256 whose capital form is 32 code units
    before them: the letters [a] to [z] and the small letters U+00E0 to
    U+00FE of the Latin-1 supplement without the division sign U+00F7.
    The three remaining small letters of that range (the micro sign, the
    sharp s and the y with diaeresis) have no capital form that is one
    code unit below 256; they are left as they are. *)
Definition isLower (c : ascii) : bool :=
  ((97 <=? N_of_ascii c) && (N_of_ascii c <=? 122)
   || (224 <=? N_of_ascii c) && (N_of_ascii c <=? 254)
      && negb (N_of_ascii c =? 247))%N.

Definition upperChar (c : ascii) : ascii :=
  if isLower c then ascii_of_N (N_of_ascii c - 32) else c.

(** [String.prototype.toUpperCase]. *)
Fixpoint toUpperCase (s : string) : string :=
  match s with
  | EmptyString => EmptyString
  | String c r => String (upperChar c) (toUpperCase r)
  end.

(** [s.slice(n)] for a non-negative [n]. *)
Fixpoint slice (n : nat) (s : string) : string :=
  match n, s with
  | O, _ => s
  | S _, EmptyString => EmptyString
  | S m, String _ r => slice m r
  end.

(** [s.charAt(0)]. *)
Definition charAt0 (s : string) : string :=
  match s with
  | EmptyString => EmptyString
  | String c _ => String c EmptyString
  end.

(** The function [formatKeyCombination] maps over the parts. *)
Definition formatPart (part : string) : string :=
  let trimmed := trim part in
  if trimmed =? "wheel_up" then "Wheel Up"
  else if trimmed =? "wheel_down" then "Wheel Down"
  else if trimmed =? "middle_click" then "Middle Click"
  else if prefix "mouse" trimmed then ("Mouse " ++ slice 5 trimmed)%string
  else if trimmed =? "." then ">"
  else if trimmed =? "," then "<"
  else (toUpperCase (charAt0 trimmed) ++ slice 1 trimmed)%string.

(** [parts.join(' + ')]. *)
Fixpoint join_display (l : list string) : string :=
  match l with
  | [] => EmptyString
  | [x] => x
  | x :: r => (x ++ " + " ++ join_display r)%string
  end.

Definition formatKeyCombination (combo : string) : string :=
  if combo =? "" then "Not set"
  else join_display (map formatPart (split_plus combo)).

(** What the listeners of [handleKeyBinding] do to the page: the text
    they put on the button, the calls of [preventDefault] and
    [stopPropagation] on the event, the setting they save, and the
    request to put the stored text back on the button. *)
Inductive effect : Type :=
| SetText (text : string)
| Prevent
| Stop
| SaveSetting (combo : string)
| RestoreText.

(** The variables of one call of [handleKeyBinding]: [recordTimeout]
    holds the combo the pending timer will finish with. *)
Record session : Type := {
  isListening : bool;
  recordTimeout : option string
}.

Definition listening : session := {| isListening := true; recordTimeout := None |}.

(** [finishRecording(combo)], [None] for [null]. *)
Definition finishRecording (combo : option string) (s : session)
  : session * list effect :=
  let s' := {| isListening := false; recordTimeout := None |} in
  match combo with
  | None => (s', [RestoreText])
  | Some c =>
      if c =? "" then (s', [RestoreText])
      else (s', [SaveSetting c; SetText (formatKeyCombination c)])
  end.

Definition recordKeyPress (e : event) (s : session) : session * list effect :=
  let key := toLowerCase (key e) in
  if key =? "escape" then finishRecording None s
  else if (key =? "shift") || (key =? "control") || (key =? "alt") then (s, [])
  else
    let combo := getComboFromEvent e in
    if negb (combo =? "") then
      ({| isListening := isListening s; recordTimeout := Some combo |},
       [SetText (formatKeyCombination combo); Prevent; Stop])
    else (s, [Prevent; Stop]).

Definition recordWheel (e : event) (s : session) : session * list effect :=
  let combo := getComboFromEvent e in
  if negb (combo =? "") then
    let '(s', tr) := finishRecording (Some combo) s in
    (s', SetText (formatKeyCombination combo) :: tr ++ [Prevent; Stop])
  else (s, [Prevent; Stop]).

(** [onButton] tells whether the target of the event is the button that
    is being bound. *)
Definition recordMouseButton (e : event) (onButton : bool) (s : session)
  : session * list effect :=
  if negb (button e =? 1)%Z && onButton then (s, [])
  else
    let combo := getComboFromEvent e in
    if negb (combo =? "") then
      let '(s', tr) := finishRecording (Some combo) s in
      (s', Prevent :: Stop :: SetText (formatKeyCombination combo) :: tr)
    else (s, []).

Definition keydownListener (e : event) (s : session) : session * list effect :=
  if negb (isListening s) then (s, []) else recordKeyPress e s.

Definition wheelListener (e : event) (s : session) : session * list effect :=
  if negb (isListening s) then (s, []) else recordWheel e s.

Definition mousedownListener (e : event) (onButton : bool) (s : session)
  : session * list effect :=
  if negb (isListening s) then (s, [])
  else if (button e =? 1)%Z then
    let '(s', tr) := recordMouseButton e onButton s in
    (s', tr ++ [Prevent; Stop])
  else if negb onButton then recordMouseButton e onButton s
  else (s, []).

(** The timer armed by [recordKeyPress] fires. *)
Definition timerFires (s : session) : session * list effect :=
  match recordTimeout s with
  | Some c => finishRecording (Some c) s
  | None => (s, [])
  end.

(** [elsewhere]: the click is neither on the button nor in a tooltip. *)
Definition documentClickListener (elsewhere : bool) (s : session)
  : session * list effect :=
  if isListening s && elsewhere then finishRecording None s else (s, []).

(** What can happen while a shortcut is being recorded. *)
Inductive input : Type :=
| KeyDown (e : event)
| Wheel (e : event)
| MouseDown (e : event) (onButton : bool)
| Timer
| Click (elsewhere : bool).

Definition react (i : input) (s : session) : session * list effect :=
  match i with
  | KeyDown e => keydownListener e s
  | Wheel e => wheelListener e s
  | MouseDown e onButton => mousedownListener e onButton s
  | Timer => timerFires s
  | Click elsewhere => documentClickListener elsewhere s
  end.

(** The listeners run on a sequence of inputs. *)
Fixpoint record (inputs : list input) (s : session) : session * list effect :=
  match inputs with
  | [] => (s, [])
  | i :: r =>
      let '(s1, t1) := react i s in
      let '(s2, t2) := record r s1 in
      (s2, t1 ++ t2)
  end.

(** The combos a trace saves, in order. *)
Fixpoint saves (tr : list effect) : list string :=
  match tr with
  | [] => []
  | SaveSetting c :: r => c :: saves r
  | _ :: r => saves r
  end.

(** The event an input carries. *)
Definition eventOf (i : input) : option event :=
  match i with
  | KeyDown e | Wheel e | MouseDown e _ => Some e
  | _ => None
  end.

(** *** The page: all the calls of [handleKeyBinding]

    The listeners above belong to one call of [handleKeyBinding].  The
    page makes a call whenever one of its three shortcut buttons is
    clicked, also while the listeners of earlier calls are still
    installed on the document: every call has its own variables
    [isListening] and [recordTimeout] and its own listeners. *)



















End Settings.

(** ** Vocabulary of the further statements *)

Definition isPlus (c : ascii) : bool := Ascii.eqb c "+".
Definition hasPlus (s : string) : bool := anyChar isPlus s.

Fixpoint countPlus (s : string) : nat :=
  match s with
  | EmptyString => O
  | String c r => if isPlus c then S (countPlus r) else countPlus r
  end.

(** White space as [trim] understands it. *)
Definition hasWhiteSpace (s : string) : bool := anyChar isWhiteSpace s.

Definition startsWithSpace (s : string) : bool :=
  match s with
  | String c _ => isWhiteSpace c
  | EmptyString => false
  end.

Fixpoint endsWithSpace (s : string) : bool :=
  match s with
  | EmptyString => false
  | String c EmptyString => isWhiteSpace c
  | String _ r => endsWithSpace r
  end.

(** The token an event contributes after its modifiers; [None] when the
    event has no combo. *)
Definition primaryToken (ev : event) : option string :=
  match type ev with
  | wheel => Some (if negative (deltaY ev) then "wheel_up" else "wheel_down")
  | mousedown =>
      Some (if (button ev =? 1)%Z then "middle_click"
            else ("mouse" ++ numberToString (button ev + 1))%string)
  | _ =>
      if isBareModifier (toLowerCase (key ev)) then None
      else Some (normalizeKey (toLowerCase (key ev)))
  end.

(** The modifier prefix as the settings page displays it. *)
Definition displayPrefix (ev : event) : string :=
  ((if shiftKey ev then "Shift + " else "") ++
   (if ctrlKey ev then "Ctrl + " else "") ++
   (if altKey ev then "Alt + " else "") ++
   (if metaKey ev then "Cmd + " else ""))%string.

(** The pairs of combo and callback [initializeShortcuts] is to bind:
    one per setting that is a non-empty string. *)
Definition wanted (s : Content.settings) : list (string * Content.speedAction) :=
  flat_map (fun '(v, a) =>
              match v with
              | VString c => if c =? "" then [] else [(c, a)]
              | _ => []
              end)
    [(Content.increaseSpeedKey s, Content.IncreaseSpeed);
     (Content.decreaseSpeedKey s, Content.DecreaseSpeed);
     (Content.resetSpeedKey s, Content.ResetSpeed)].

(** The binding [bind] adds for a setting, if any. *)
Definition bound (t : Content.stamp) (v : value Content.speedAction)
  (a : Content.speedAction) : list (binding Content.speedAction) :=
  match v with
  | VString c =>
      if c =? "" then []
      else [{| id := fst t + snd t;
               keys := map trim (split_plus (toLowerCase c));
               combo := c; callback := a |}]
  | _ => []
  end.

(** The combo and the callback of a binding. *)
Definition shortcutOf {Callback : Type} (b : binding Callback) : string * Callback :=
  (combo b, callback b).

(** A setting on which [bind] does not raise: falsy, or a string. *)
Definition harmless (v : value Content.speedAction) : bool :=
  negb (truthy v) || match v with VString _ => true | _ => false end.

(** A combo the settings page may save after the inputs [inputs]: not
    empty, and the canonical combo of the event of one of the inputs,
    which is not a press of the escape key. *)
Definition recordable (inputs : list Settings.input) (c : string) : Prop :=
  c <> "" /\
  exists i e,
    In i inputs /\ Settings.eventOf i = Some e /\ getComboFromEvent e = c /\
    (forall k, i = Settings.KeyDown k -> toLowerCase (key k) <> "escape").


(** A session that has finished has no timer pending. *)
Definition settled (s : Settings.session) : Prop :=
  Settings.isListening s = false -> Settings.recordTimeout s = None.


(** The event of an input has the type its listener is registered for. *)
Definition typed (i : Settings.input) : bool :=
  match i with
  | Settings.KeyDown e => match type e with keydown => true | _ => false end
  | Settings.Wheel e => match type e with wheel => true | _ => false end
  | Settings.MouseDown e _ => match type e with mousedown => true | _ => false end
  | _ => true
  end.

(** The listeners of the key handler run on a sequence of events. *)
Fixpoint dispatchAll {Callback : Type} (call : Callback -> event -> value Callback)
  (evs : list event) (st : state Callback) : state Callback :=
  match evs with
  | [] => st
  | ev :: r => dispatchAll call r (fst (dispatch call ev st))
  end.

Definition isShiftKey (ev : event) : bool :=
  match type ev with
  | keydown | keyup => key ev =? "Shift"
  | _ => false
  end.

(** ** Facts about strings *)

(** Case analysis on the 256 code units. *)
Ltac each_ascii c := destruct c as [[] [] [] [] [] [] [] []].

(** Use the hypotheses [p c = false] on the code units in the goal. *)
Ltac rewrite_tests p :=
  repeat match goal with
         | Hc : p ?c = false |- context [p ?c] => rewrite Hc
         end.

(** Split a hypothesis [p c1 || (p c2 || ...) = false] into its parts. *)
Ltac split_tests H :=
  simpl in H; repeat (apply orb_false_iff in H as [? H]).


Lemma lowerChar_not_upper (c : ascii) : isUpper (lowerChar c) = false.
Proof.
  each_ascii c; reflexivity.
Qed.

Lemma lowerChar_isSpace (c : ascii) : isSpace (lowerChar c) = isSpace c.
Proof.
  each_ascii c; reflexivity.
Qed.

Lemma lowerChar_isAngle (c : ascii) : isAngle (lowerChar c) = isAngle c.
Proof.
  each_ascii c; reflexivity.
Qed.

Lemma lowerChar_idem (c : ascii) : lowerChar (lowerChar c) = lowerChar c.
Proof.
  unfold lowerChar at 1. now rewrite lowerChar_not_upper.
Qed.

Lemma toLowerCase_idem (s : string) : toLowerCase (toLowerCase s) = toLowerCase s.
Proof.
  induction s as [|c r IH]; simpl; [reflexivity|].
  now rewrite lowerChar_idem, IH.
Qed.

Lemma hasUpper_toLowerCase (s : string) : hasUpper (toLowerCase s) = false.
Proof.
  unfold hasUpper.
  induction s as [|c r IH]; simpl; [reflexivity|].
  now rewrite lowerChar_not_upper, IH.
Qed.

Lemma anyChar_toLowerCase (p : ascii -> bool) (s : string) :
  (forall c, p (lowerChar c) = p c) ->
  anyChar p (toLowerCase s) = anyChar p s.
Proof.
  intros Hp. induction s as [|c r IH]; simpl; [reflexivity|].
  now rewrite Hp, IH.
Qed.

Lemma anyChar_append (p : ascii -> bool) (a b : string) :
  anyChar p (a ++ b)%string = anyChar p a || anyChar p b.
Proof.
  induction a as [|c r IH]; simpl; [reflexivity|].
  now rewrite IH, orb_assoc.
Qed.

Lemma append_not_empty (a b : string) : b <> "" -> (a ++ b)%string <> "".
Proof.
  intros Hb. destruct a; simpl; [assumption | discriminate].
Qed.

Lemma spaceAroundPlus_hasSpace (s : string) :
  spaceAroundPlus s = true -> hasSpace s = true.
Proof.
  unfold hasSpace.
  induction s as [|a r IH]; simpl; [discriminate|].
  destruct r as [|b r']; [discriminate|].
  intros H. apply orb_true_iff in H as [H | H].
  - apply orb_true_iff in H as [H | H]; apply andb_true_iff in H as [H1 H2].
    + now rewrite H1.
    + simpl. rewrite H2. now rewrite orb_true_r.
  - rewrite (IH H). apply orb_true_r.
Qed.

Lemma anyChar_uint (p : ascii -> bool) (u : Decimal.uint) :
  (forall c, isDigitOrMinus c = true -> p c = false) ->
  anyChar p (NilEmpty.string_of_uint u) = false.
Proof.
  intros Hp.
  induction u as [|u IH|u IH|u IH|u IH|u IH|u IH|u IH|u IH|u IH|u IH];
    simpl; [reflexivity | rewrite IH, orb_false_r; now apply Hp ..].
Qed.

Lemma anyChar_numberToString (p : ascii -> bool) (z : Z) :
  (forall c, isDigitOrMinus c = true -> p c = false) ->
  anyChar p (numberToString z) = false.
Proof.
  intros Hp. unfold numberToString, NilZero.string_of_int.
  assert (U : forall u, anyChar p (NilZero.string_of_uint u) = false).
  { intros u. unfold NilZero.string_of_uint.
    destruct u; try apply (anyChar_uint p _ Hp).
    simpl. rewrite orb_false_r. now apply Hp. }
  destruct (Z.to_int z) as [u | u].
  - apply U.
  - simpl. rewrite U, orb_false_r. now apply Hp.
Qed.

(** ** Facts about the normaliser *)

Lemma join_modifiers (ev : event) (tok : string) :
  join_plus (modifierKeys ev ++ [tok]) = (modifierPrefix ev ++ tok)%string.
Proof.
  unfold modifierKeys, modifierPrefix.
  destruct (shiftKey ev), (ctrlKey ev), (altKey ev), (metaKey ev); reflexivity.
Qed.

Lemma anyChar_modifierPrefix (p : ascii -> bool) (ev : event) :
  anyChar p "shift+ctrl+alt+cmd+" = false ->
  anyChar p (modifierPrefix ev) = false.
Proof.
  intros H. unfold modifierPrefix.
  split_tests H.
  destruct (shiftKey ev), (ctrlKey ev), (altKey ev), (metaKey ev); simpl;
    rewrite_tests p; reflexivity.
Qed.

Lemma anyChar_normalizeKey (p : ascii -> bool) (k : string) :
  anyChar p "ctrlcmdaltspace.," = false ->
  anyChar p (toLowerCase k) = false ->
  anyChar p (normalizeKey k) = false.
Proof.
  intros H Hk. split_tests H.
  unfold normalizeKey.
  repeat match goal with
         | |- context [if ?b then _ else _] => destruct b
         end; simpl;
    rewrite_tests p; auto.
Qed.

(** The token a non-modifier key press contributes. *)
Lemma getCombo_key (ev : event) :
  type ev = keydown \/ type ev = keyup ->
  isBareModifier (toLowerCase (key ev)) = false ->
  getComboFromEvent ev
  = (modifierPrefix ev ++ normalizeKey (toLowerCase (key ev)))%string.
Proof.
  intros [T | T] B; unfold getComboFromEvent; rewrite T, B; apply join_modifiers.
Qed.

Lemma getCombo_wheel (ev : event) :
  type ev = wheel ->
  getComboFromEvent ev
  = (modifierPrefix ev ++ (if negative (deltaY ev) then "wheel_up" else "wheel_down"))%string.
Proof.
  intros T. unfold getComboFromEvent. rewrite T. apply join_modifiers.
Qed.

Lemma getCombo_mouse (ev : event) :
  type ev = mousedown ->
  getComboFromEvent ev
  = (modifierPrefix ev ++
       (if (button ev =? 1)%Z then "middle_click"
        else "mouse" ++ numberToString (button ev + 1)))%string.
Proof.
  intros T. unfold getComboFromEvent. rewrite T.
  destruct (button ev =? 1)%Z; apply join_modifiers.
Qed.

(** Whatever a character test [p] rejects in the fixed tokens, in
    decimal numerals and in the lowercased key, it rejects in the
    combo. *)
Lemma anyChar_getCombo (p : ascii -> bool) (ev : event) :
  anyChar p "shift+ctrl+alt+cmd+wheel_updownmiddle_clickmousespace.," = false ->
  (forall c, isDigitOrMinus c = true -> p c = false) ->
  anyChar p (normalizeKey (toLowerCase (key ev))) = false ->
  anyChar p (getComboFromEvent ev) = false.
Proof.
  intros H Hd Hk.
  assert (P : anyChar p (modifierPrefix ev) = false).
  { apply anyChar_modifierPrefix. split_tests H. simpl.
    rewrite_tests p; reflexivity. }
  split_tests H.
  destruct (type ev) eqn:T.
  - destruct (isBareModifier (toLowerCase (key ev))) eqn:B.
    + unfold getComboFromEvent. now rewrite T, B.
    + rewrite getCombo_key by auto. now rewrite anyChar_append, P, Hk.
  - destruct (isBareModifier (toLowerCase (key ev))) eqn:B.
    + unfold getComboFromEvent. now rewrite T, B.
    + rewrite getCombo_key by auto. now rewrite anyChar_append, P, Hk.
  - rewrite getCombo_wheel by assumption. rewrite anyChar_append, P.
    destruct (negative (deltaY ev)); simpl;
      rewrite_tests p; reflexivity.
  - rewrite getCombo_mouse by assumption. rewrite anyChar_append, P.
    destruct (button ev =? 1)%Z; simpl;
      rewrite_tests p; [reflexivity|].
    now apply anyChar_numberToString.
Qed.

Lemma hasUpper_getCombo (ev : event) : hasUpper (getComboFromEvent ev) = false.
Proof.
  apply anyChar_getCombo.
  - reflexivity.
  - intros c. each_ascii c; cbv; congruence.
  - apply anyChar_normalizeKey; [reflexivity|].
    rewrite toLowerCase_idem. apply hasUpper_toLowerCase.
Qed.

Lemma plainKey_normalized (p : ascii -> bool) (k : string) :
  (forall c, p (lowerChar c) = p c) ->
  (forall c, p c = true -> isSpace c || isAngle c = true) ->
  plainKey k = true ->
  anyChar p (normalizeKey (toLowerCase k)) = false.
Proof.
  intros Hl Hp Hk. unfold plainKey in Hk.
  repeat (apply orb_true_iff in Hk as [Hk | Hk]).
  - apply String.eqb_eq in Hk. subst k. simpl.
    destruct (p "s"%char) eqn:E1; [apply Hp in E1; discriminate|].
    destruct (p "p"%char) eqn:E2; [apply Hp in E2; discriminate|].
    destruct (p "a"%char) eqn:E3; [apply Hp in E3; discriminate|].
    destruct (p "c"%char) eqn:E4; [apply Hp in E4; discriminate|].
    destruct (p "e"%char) eqn:E5; [apply Hp in E5; discriminate|].
    reflexivity.
  - apply String.eqb_eq in Hk. subst k. simpl.
    destruct (p "."%char) eqn:E1; [apply Hp in E1; discriminate|]. reflexivity.
  - apply String.eqb_eq in Hk. subst k. simpl.
    destruct (p ","%char) eqn:E1; [apply Hp in E1; discriminate|]. reflexivity.
  - apply negb_true_iff, orb_false_iff in Hk as [Hs Ha].
    assert (N : anyChar p k = false).
    { unfold hasSpace, hasAngle in *.
      induction k as [|c r IH]; simpl in *; [reflexivity|].
      apply orb_false_iff in Hs as [Hs1 Hs2], Ha as [Ha1 Ha2].
      rewrite (IH Hs2 Ha2), orb_false_r.
      destruct (p c) eqn:E; [|reflexivity].
      apply Hp in E. now rewrite Hs1, Ha1 in E. }
    apply anyChar_normalizeKey.
    + simpl.
      repeat match goal with
             | |- context [p ?c] =>
                 let E := fresh "E" in
                 destruct (p c) eqn:E; [apply Hp in E; discriminate|]
             end.
      reflexivity.
    + now rewrite toLowerCase_idem, anyChar_toLowerCase.
Qed.

Lemma plain_getCombo (p : ascii -> bool) (ev : event) :
  (forall c, p (lowerChar c) = p c) ->
  (forall c, p c = true -> isSpace c || isAngle c = true) ->
  plainEvent ev = true ->
  anyChar p (getComboFromEvent ev) = false.
Proof.
  intros Hl Hp He.
  assert (C : forall s, anyChar (fun c => isSpace c || isAngle c) s = false ->
                        anyChar p s = false).
  { induction s as [|c r IH]; simpl; [reflexivity|].
    intros H. apply orb_false_iff in H as [H1 H2].
    rewrite (IH H2), orb_false_r.
    destruct (p c) eqn:E; [|reflexivity]. apply Hp in E. congruence. }
  unfold plainEvent in He.
  destruct (type ev) eqn:T.
  - apply anyChar_getCombo.
    + now apply C.
    + intros c Hc. destruct (p c) eqn:E; [|reflexivity]. apply Hp in E.
      revert Hc E. each_ascii c; cbv; congruence.
    + now apply plainKey_normalized.
  - apply anyChar_getCombo.
    + now apply C.
    + intros c Hc. destruct (p c) eqn:E; [|reflexivity]. apply Hp in E.
      revert Hc E. each_ascii c; cbv; congruence.
    + now apply plainKey_normalized.
  - rewrite getCombo_wheel by assumption. rewrite anyChar_append.
    rewrite anyChar_modifierPrefix by now apply C.
    destruct (negative (deltaY ev)); now apply C.
  - rewrite getCombo_mouse by assumption. rewrite anyChar_append.
    rewrite anyChar_modifierPrefix by now apply C.
    destruct (button ev =? 1)%Z; [now apply C|].
    rewrite anyChar_append, (C "mouse") by reflexivity.
    apply anyChar_numberToString.
    intros c Hc. destruct (p c) eqn:E; [|reflexivity]. apply Hp in E.
    revert Hc E. each_ascii c; cbv; congruence.
Qed.

(** ** Facts about the registry *)

Section RegistryFacts.

Context {Callback : Type}.
Variable call : Callback -> event -> value Callback.

Implicit Types (b : binding Callback) (bs : list (binding Callback))
  (st : state Callback) (v : value Callback) (ev : event).

Lemma isFalse_iff v : isFalse v = true <-> v = VBoolean false.
Proof.
  split.
  - destruct v as [| |[]| | | |]; simpl; congruence.
  - intros ->. reflexivity.
Qed.

(** *** The loops of the listeners *)

Lemma keyLoop_actions ev c bs :
  keyLoop call ev c bs = flat_map (keyActions call ev) (filter (matches c) bs).
Proof.
  induction bs as [|b r IH]; simpl; [reflexivity|].
  unfold matches at 1. destruct (combo b =? c); simpl; now rewrite IH.
Qed.

Lemma invoked_app (t1 t2 : list (action Callback)) :
  invoked (t1 ++ t2) = invoked t1 ++ invoked t2.
Proof.
  induction t1 as [|[b| |] r IH]; simpl; now rewrite ?IH.
Qed.

Lemma invoked_keyLoop ev c bs :
  invoked (keyLoop call ev c bs) = filter (matches c) bs.
Proof.
  induction bs as [|b r IH]; simpl; [reflexivity|].
  unfold matches at 1. destruct (combo b =? c); simpl; [|assumption].
  rewrite invoked_app, IH.
  now destruct (isFalse (call (callback b) ev)).
Qed.

Lemma mouseLoop_find c bs :
  mouseLoop c bs
  = match find (matches c) bs with Some b => [Invoke b] | None => [] end.
Proof.
  induction bs as [|b r IH]; simpl; [reflexivity|].
  unfold matches at 1. now destruct (combo b =? c).
Qed.

Lemma comboBound_existsb c bs : comboBound c bs = existsb (matches c) bs.
Proof.
  induction bs as [|b r IH]; simpl; [reflexivity|].
  unfold matches at 1. now destruct (combo b =? c).
Qed.

(** A [mousedown] that is dispatched invokes exactly what
    [handleMouseEvent] invokes. *)
Lemma invoked_mouseLoop_In c bs b :
  In b (invoked (mouseLoop c bs)) -> In b bs /\ combo b = c.
Proof.
  induction bs as [|b' r IH]; simpl; [tauto|].
  destruct (combo b' =? c) eqn:E; simpl.
  - intros [<- | []]. split; [now left | now apply String.eqb_eq].
  - intros H. destruct (IH H). split; [now right | assumption].
Qed.

(** *** [findIndex] and [splice] *)

Lemma findIndex_Some (p : binding Callback -> bool) bs i :
  findIndex p bs = Some i ->
  exists pre b post,
    bs = pre ++ b :: post /\ List.length pre = i /\ p b = true /\
    (forall x, In x pre -> p x = false).
Proof.
  revert i. induction bs as [|b r IH]; simpl; intros i H; [discriminate|].
  destruct (p b) eqn:E.
  - injection H as <-. exists [], b, r. simpl. repeat split; auto. tauto.
  - destruct (findIndex p r) as [j|]; [|discriminate].
    injection H as <-.
    destruct (IH j eq_refl) as (pre & x & post & -> & L & Px & N).
    exists (b :: pre), x, post. simpl. repeat split; auto.
    intros y [<- | Hy]; auto.
Qed.

Lemma findIndex_None (p : binding Callback -> bool) bs :
  findIndex p bs = None -> forall x, In x bs -> p x = false.
Proof.
  induction bs as [|b r IH]; simpl; intros H x; [tauto|].
  destruct (p b) eqn:E; [discriminate|].
  destruct (findIndex p r); [discriminate|].
  intros [<- | Hx]; auto.
Qed.

Lemma splice1_middle (pre post : list (binding Callback)) b :
  splice1 (List.length pre) (pre ++ b :: post) = pre ++ post.
Proof.
  unfold splice1.
  induction pre as [|a r IH]; simpl; [reflexivity|].
  f_equal. exact IH.
Qed.

(** The downward loop of [unbind] removes every binding with the given
    combo among the first [n], and reports whether there was one. *)
Lemma unbindLoop_filter v :
  forall n (pre suf : list (binding Callback)) found,
    List.length pre = n ->
    unbindLoop n v (pre ++ suf) found
    = (found || existsb (fun b => comboEquals b v) pre,
       filter (fun b => negb (comboEquals b v)) pre ++ suf).
Proof.
  induction n as [|i IH]; intros pre suf found L.
  - destruct pre; [|discriminate]. simpl. now rewrite orb_false_r.
  - destruct (exists_last (l := pre)) as (pre' & b & ->).
    { intros ->. discriminate. }
    rewrite length_app in L. simpl in L.
    assert (L' : List.length pre' = i) by lia.
    simpl. rewrite <- app_assoc. simpl.
    rewrite nth_error_app2, L', Nat.sub_diag by lia. simpl.
    rewrite existsb_app, filter_app. simpl.
    destruct (comboEquals b v) eqn:E; simpl.
    + replace (splice1 i (pre' ++ b :: suf)) with (pre' ++ suf)
        by (now rewrite <- L', splice1_middle).
      rewrite IH by assumption.
      rewrite app_nil_r, !orb_true_r. reflexivity.
    + rewrite (IH pre' (b :: suf)) by assumption.
      rewrite !orb_false_r, <- app_assoc. reflexivity.
Qed.

Lemma unbind_number n st :
  unbind (VNumber n) st
  = if truthy (@VNumber Callback n)
    then match findIndex (fun b => idEquals b (VNumber n)) (bindings st) with
         | Some index => (true, setBindings (splice1 index (bindings st)) st)
         | None => (false, st)
         end
    else (false, st).
Proof.
  unfold unbind. now destruct (truthy (VNumber n)).
Qed.

Lemma unbind_string s st :
  s <> "" ->
  unbind (VString s) st
  = (existsb (matches s) (bindings st),
     setBindings (filter (fun b => negb (matches s b)) (bindings st)) st).
Proof.
  intros Hs. unfold unbind. simpl.
  destruct (s =? "") eqn:E; [now apply String.eqb_eq in E|]. simpl.
  rewrite <- (app_nil_r (bindings st)) at 2.
  rewrite unbindLoop_filter by reflexivity.
  now rewrite app_nil_r.
Qed.

(** [unbind] only ever removes bindings. *)
Lemma unbind_incl v st b :
  In b (bindings (snd (unbind v st))) -> In b (bindings st).
Proof.
  unfold unbind. destruct (truthy v); simpl; [|auto].
  pose proof (unbindLoop_filter v (List.length (bindings st)) (bindings st) []
                false eq_refl) as U.
  rewrite app_nil_r in U.
  destruct v; rewrite ?U; simpl;
    try (rewrite app_nil_r; intros H; apply filter_In in H; tauto).
  destruct (findIndex _ _) as [i|] eqn:F; simpl; [|auto].
  apply findIndex_Some in F as (pre & x & post & E & L & _).
  rewrite E, <- L, splice1_middle, !in_app_iff. simpl. tauto.
Qed.

Lemma unbind_modifierState v st :
  modifierState (snd (unbind v st)) = modifierState st.
Proof.
  unfold unbind. destruct (truthy v); simpl; [|reflexivity].
  destruct v; try (destruct (unbindLoop _ _ _ _); reflexivity).
  now destruct (findIndex _ _).
Qed.

Lemma dispatch_bindings ev st : bindings (fst (dispatch call ev st)) = bindings st.
Proof.
  unfold dispatch, handleKeyEvent, handleMouseEvent, mousedownListener,
    handleMouseEvent.
  destruct (type ev); simpl;
    repeat match goal with
           | |- context [if ?c then _ else _] => destruct c; simpl
           end; reflexivity.
Qed.

(** *** The registry invariant *)

Lemma bind_accepts now rnd s f st :
  s <> "" ->
  bind now rnd (VString s) (VFunction f) st
  = (Return (now + rnd),
     setBindings
       (bindings st ++
          [{| id := now + rnd;
              keys := map trim (split_plus (toLowerCase s));
              combo := s; callback := f |}]) st).
Proof.
  intros Hs. unfold bind, parseCombo. simpl.
  destruct (s =? "") eqn:E; [now apply String.eqb_eq in E|]. reflexivity.
Qed.

(** [bind] either leaves the state alone or appends one binding with a
    non-empty combo. *)
Lemma bind_inv now rnd c cb st :
  snd (bind now rnd c cb st) = st \/
  (exists s f, c = VString s /\ cb = VFunction f /\ s <> "" /\
     bind now rnd c cb st
     = (Return (now + rnd),
        setBindings
          (bindings st ++
             [{| id := now + rnd;
                 keys := map trim (split_plus (toLowerCase s));
                 combo := s; callback := f |}]) st)).
Proof.
  unfold bind, parseCombo.
  destruct cb; try (now left).
  destruct (truthy c) eqn:T; simpl; [|now left].
  destruct c; try (now left).
  right. exists s, f. repeat split.
  simpl in T. apply negb_true_iff in T. intros ->. discriminate.
Qed.

Lemma wellFormed_reachable st : reachable call st -> wellFormed st.
Proof.
  unfold wellFormed.
  induction 1 as [|st now rnd c cb _ IH Hn Hr|st v _ IH|st _ IH|st ev _ IH].
  - constructor.
  - destruct (bind_inv now rnd c cb st) as [-> | (s & f & _ & _ & Hs & ->)];
      [assumption|].
    simpl. apply Forall_app. split; [assumption|].
    constructor; [|constructor]. simpl. split; [lia | assumption].
  - apply Forall_forall. intros b Hb. apply unbind_incl in Hb.
    revert b Hb. now apply Forall_forall.
  - constructor.
  - now rewrite dispatch_bindings.
Qed.

(** *** What a dispatch invokes *)

Lemma dispatch_keydown ev st :
  type ev = keydown ->
  snd (dispatch call ev st)
  = if getComboFromEvent ev =? "" then []
    else flat_map (keyActions call ev)
           (filter (matches (getComboFromEvent ev)) (bindings st)).
Proof.
  intros T. unfold dispatch, handleKeyEvent. rewrite T.
  destruct (getComboFromEvent ev =? ""); simpl; [reflexivity|].
  apply keyLoop_actions.
Qed.

Lemma invoked_keydown ev st :
  type ev = keydown ->
  invoked (snd (dispatch call ev st))
  = if getComboFromEvent ev =? "" then []
    else filter (matches (getComboFromEvent ev)) (bindings st).
Proof.
  intros T. unfold dispatch, handleKeyEvent. rewrite T.
  destruct (getComboFromEvent ev =? ""); simpl; [reflexivity|].
  apply invoked_keyLoop.
Qed.

Lemma dispatch_wheel ev st :
  type ev = wheel ->
  snd (dispatch call ev st)
  = if getComboFromEvent ev =? "" then []
    else mouseLoop (getComboFromEvent ev) (bindings st).
Proof.
  intros T. unfold dispatch, handleMouseEvent. rewrite T.
  now destruct (getComboFromEvent ev =? "").
Qed.

Lemma dispatch_mousedown ev st :
  type ev = mousedown ->
  snd (dispatch call ev st)
  = if negb (button ev =? 0)%Z && comboBound (getComboFromEvent ev) (bindings st)
    then PreventDefault :: StopPropagation ::
           (if getComboFromEvent ev =? "" then []
            else mouseLoop (getComboFromEvent ev) (bindings st))
    else [].
Proof.
  intros T. unfold dispatch, mousedownListener, handleMouseEvent. rewrite T.
  destruct (button ev =? 0)%Z; simpl; [reflexivity|].
  destruct (comboBound _ _); [|reflexivity].
  now destruct (getComboFromEvent ev =? "").
Qed.

Lemma getCombo_pointer_not_empty ev :
  type ev = wheel \/ type ev = mousedown -> (getComboFromEvent ev =? "") = false.
Proof.
  intros T. apply String.eqb_neq.
  destruct T as [T | T];
    [rewrite getCombo_wheel by assumption | rewrite getCombo_mouse by assumption];
    apply append_not_empty.
  - now destruct (negative (deltaY ev)).
  - now destruct (button ev =? 1)%Z.
Qed.

Lemma invoked_mouseLoop c bs :
  invoked (mouseLoop c bs) = firstn 1 (filter (matches c) bs).
Proof.
  induction bs as [|b r IH]; simpl; [reflexivity|].
  unfold matches at 1. now destruct (combo b =? c).
Qed.

(** A wheel dispatch invokes the first matching binding and no other. *)
Lemma invoked_wheel ev st :
  type ev = wheel ->
  invoked (snd (dispatch call ev st))
  = firstn 1 (filter (matches (getComboFromEvent ev)) (bindings st)).
Proof.
  intros T. rewrite dispatch_wheel by assumption.
  rewrite getCombo_pointer_not_empty by auto.
  apply invoked_mouseLoop.
Qed.

(** So does the dispatch of a [mousedown] of a non-primary button. *)
Lemma invoked_mousedown ev st :
  type ev = mousedown ->
  invoked (snd (dispatch call ev st))
  = if (button ev =? 0)%Z then []
    else firstn 1 (filter (matches (getComboFromEvent ev)) (bindings st)).
Proof.
  intros T. rewrite dispatch_mousedown by assumption.
  rewrite getCombo_pointer_not_empty by auto.
  destruct (button ev =? 0)%Z; simpl; [reflexivity|].
  rewrite comboBound_existsb.
  destruct (existsb _ _) eqn:E; simpl; [apply invoked_mouseLoop|].
  induction (bindings st) as [|b r IH]; simpl in *; [reflexivity|].
  apply orb_false_iff in E as [E1 E2]. rewrite E1. now apply IH.
Qed.

Lemma invoked_stored ev st b :
  In b (invoked (snd (dispatch call ev st))) ->
  In b (bindings st) /\ combo b = getComboFromEvent ev.
Proof.
  destruct (type ev) eqn:T.
  - rewrite invoked_keydown by assumption.
    destruct (getComboFromEvent ev =? ""); [intros []|].
    intros H. apply filter_In in H as [H1 H2].
    split; [assumption | now apply String.eqb_eq].
  - unfold dispatch, handleKeyEvent. rewrite T. intros [].
  - rewrite dispatch_wheel by assumption.
    destruct (getComboFromEvent ev =? ""); [intros []|].
    apply invoked_mouseLoop_In.
  - rewrite dispatch_mousedown by assumption.
    destruct (negb (button ev =? 0)%Z && _); [|intros []]. simpl.
    destruct (getComboFromEvent ev =? ""); [intros []|].
    apply invoked_mouseLoop_In.
Qed.

Lemma negative_lt (q : Q) : negative q = true <-> (q < 0)%Q.
Proof.
  unfold negative, Qlt. simpl. rewrite Z.ltb_lt. lia.
Qed.

Lemma alias_normalized (k1 k2 : string) :
  alias k1 k2 ->
  isBareModifier (toLowerCase k1) = false /\
  isBareModifier (toLowerCase k2) = false /\
  normalizeKey (toLowerCase k1) = normalizeKey (toLowerCase k2).
Proof.
  induction 1 as [| | |k1 k2 _ (B1 & B2 & N)]; repeat split; auto.
Qed.

Lemma modifierPrefix_same (e1 e2 : event) :
  sameModifiers e1 e2 -> modifierPrefix e1 = modifierPrefix e2.
Proof.
  intros (S1 & S2 & S3 & S4). unfold modifierPrefix.
  now rewrite S1, S2, S3, S4.
Qed.

Lemma withoutBind_incl st st' b :
  withoutBind call st st' -> In b (bindings st') -> In b (bindings st).
Proof.
  induction 1 as [st|st st' v _ IH|st st' _ IH|st st' ev _ IH]; intros Hb.
  - assumption.
  - apply IH. now apply unbind_incl in Hb.
  - destruct Hb.
  - apply IH. now rewrite dispatch_bindings in Hb.
Qed.

Lemma no_bindings_silent ev st :
  bindings st = [] -> snd (dispatch call ev st) = [].
Proof.
  intros E. unfold dispatch, handleKeyEvent, mousedownListener, handleMouseEvent.
  rewrite E. destruct (type ev); simpl;
    repeat match goal with
           | |- context [if ?c then _ else _] => destruct c; simpl
           end; reflexivity.
Qed.

Lemma rekey_keyLoop g ev c bs :
  keyLoop call ev c (map (rekeyBinding g) bs)
  = map (rekeyAction g) (keyLoop call ev c bs).
Proof.
  induction bs as [|b r IH]; simpl; [reflexivity|].
  destruct (combo b =? c); simpl; [|assumption].
  rewrite map_app, IH.
  now destruct (isFalse (call (callback b) ev)).
Qed.

Lemma rekey_mouseLoop g c bs :
  mouseLoop c (map (rekeyBinding g) bs) = map (rekeyAction g) (mouseLoop c bs).
Proof.
  induction bs as [|b r IH]; simpl; [reflexivity|].
  now destruct (combo b =? c).
Qed.

Lemma rekey_comboBound g c bs :
  comboBound c (map (rekeyBinding g) bs) = comboBound c bs.
Proof.
  induction bs as [|b r IH]; simpl; [reflexivity|].
  now destruct (combo b =? c).
Qed.

Lemma rekey_dispatch g ev st :
  snd (dispatch call ev (rekey g st))
  = map (rekeyAction g) (snd (dispatch call ev st)).
Proof.
  unfold dispatch, handleKeyEvent, mousedownListener, handleMouseEvent.
  destruct (type ev); simpl; try reflexivity.
  - destruct (getComboFromEvent ev =? ""); simpl; [reflexivity|].
    apply rekey_keyLoop.
  - destruct (getComboFromEvent ev =? ""); simpl; [reflexivity|].
    apply rekey_mouseLoop.
  - destruct (button ev =? 0)%Z; simpl; [reflexivity|].
    rewrite rekey_comboBound.
    destruct (comboBound _ _); [|reflexivity].
    destruct (getComboFromEvent ev =? ""); simpl; [reflexivity|].
    now rewrite rekey_mouseLoop.
Qed.

Lemma setBindings_same st : setBindings (bindings st) st = st.
Proof. now destruct st. Qed.

Lemma filter_none (p : binding Callback -> bool) bs :
  existsb p bs = false -> filter (fun b => negb (p b)) bs = bs.
Proof.
  induction bs as [|b r IH]; simpl; [reflexivity|].
  intros H. apply orb_false_iff in H as [H1 H2].
  now rewrite H1, IH.
Qed.

Lemma filter_some (p : binding Callback -> bool) bs :
  existsb p bs = true ->
  (List.length (filter (fun b => negb (p b)) bs) < List.length bs)%nat.
Proof.
  induction bs as [|b r IH]; simpl; [discriminate|].
  pose proof (filter_length_le (fun b => negb (p b)) r) as Hle.
  destruct (p b); simpl; intros H; [lia|].
  specialize (IH H). lia.
Qed.

Lemma unbind_combo v st :
  truthy v = true -> (forall n, v <> VNumber n) ->
  unbind v st
  = (existsb (fun b => comboEquals b v) (bindings st),
     setBindings (filter (fun b => negb (comboEquals b v)) (bindings st)) st).
Proof.
  intros T N. unfold unbind. rewrite T. simpl.
  pose proof (unbindLoop_filter v (List.length (bindings st)) (bindings st) []
                false eq_refl) as U.
  rewrite !app_nil_r in U. simpl in U.
  destruct v; try (now rewrite U).
  now destruct (N n).
Qed.

(** [unbind] reports [true] exactly when the registry got shorter, and
    leaves the state alone when it reports [false]. *)
Lemma unbind_reports v st :
  (fst (unbind v st) = true /\
   (List.length (bindings (snd (unbind v st))) < List.length (bindings st))%nat)
  \/ (fst (unbind v st) = false /\ snd (unbind v st) = st).
Proof.
  destruct (truthy v) eqn:T.
  2:{ right. unfold unbind. rewrite T. auto. }
  destruct v as [| | |n| | |];
    try (rewrite unbind_combo by (auto; intros; discriminate); cbn [fst snd bindings setBindings];
         destruct (existsb _ (bindings st)) eqn:E;
         [left; split; [reflexivity | now apply filter_some]
         |right; split; [reflexivity | rewrite filter_none by assumption;
                                       apply setBindings_same]]).
  rewrite unbind_number, T.
  destruct (findIndex _ _) as [i|] eqn:F; simpl; [left | right; auto].
  split; [reflexivity|].
  apply findIndex_Some in F as (pre & x & post & E & L & _).
  rewrite E, <- L, splice1_middle, !length_app. simpl. lia.
Qed.

End RegistryFacts.

(** ** The claims *)

Section Claims.

Context {Callback : Type}.
Variable call : Callback -> event -> value Callback.

Implicit Types (b : binding Callback) (bs : list (binding Callback))
  (st : state Callback) (v : value Callback) (ev : event).

(** C2.  Alias keys share their canonical combo: two keydown events with
    equal modifier flags whose keys are aliases of one another ([">"]
    and ["."], ["<"] and [","], [" "] and ["space"]) get the same combo
    string from [getComboFromEvent].  Consequently, after
    [bind("shift+.", cb)] on a registry without bindings, a keydown event
    with only the shift flag set and key [">"] invokes [cb] exactly
    once. *)
Theorem alias_keys_share_combo :
  (forall ev1 ev2,
      type ev1 = keydown -> type ev2 = keydown ->
      sameModifiers ev1 ev2 ->
      alias (key ev1) (key ev2) ->
      getComboFromEvent ev1 = getComboFromEvent ev2)
  /\
  (forall now rnd (cb : Callback) st ev,
      bindings st = [] ->
      type ev = keydown ->
      shiftKey ev = true -> ctrlKey ev = false ->
      altKey ev = false -> metaKey ev = false ->
      key ev = ">" ->
      exists st' b,
        bind now rnd (VString "shift+.") (VFunction cb) st = (Return (id b), st')
        /\ bindings st' = [b]
        /\ callback b = cb
        /\ invoked (snd (dispatch call ev st')) = [b]).
Proof.
  split.
  - intros ev1 ev2 T1 T2 M A.
    destruct (alias_normalized _ _ A) as (B1 & B2 & N).
    rewrite !getCombo_key by auto.
    now rewrite (modifierPrefix_same _ _ M), N.
  - intros now rnd cb st ev E T Sh Ct Al Me K.
    pose (b0 := {| id := now + rnd;
                   keys := map trim (split_plus (toLowerCase "shift+."));
                   combo := "shift+."; callback := cb |}).
    exists (setBindings [b0] st), b0. repeat split.
    + rewrite bind_accepts by discriminate. now rewrite E.
    + rewrite invoked_keydown by assumption.
      assert (C : getComboFromEvent ev = "shift+.").
      { unfold getComboFromEvent, modifierKeys.
        now rewrite T, Sh, Ct, Al, Me, K. }
      rewrite C. reflexivity.
Qed.

(** C3.  For every wheel event [getComboFromEvent] returns the modifier
    prefix followed by ["wheel_up"] when [deltaY] is negative and by
    ["wheel_down"] otherwise, and the result is never the empty
    string. *)
Theorem wheel_combo ev :
  type ev = wheel ->
  ((deltaY ev < 0)%Q ->
   getComboFromEvent ev = (modifierPrefix ev ++ "wheel_up")%string)
  /\ (~ (deltaY ev < 0)%Q ->
      getComboFromEvent ev = (modifierPrefix ev ++ "wheel_down")%string)
  /\ getComboFromEvent ev <> "".
Proof.
  intros T. rewrite getCombo_wheel by assumption.
  repeat split.
  - intros H. apply negative_lt in H. now rewrite H.
  - intros H. destruct (negative (deltaY ev)) eqn:E; [|reflexivity].
    now apply negative_lt in E.
  - apply append_not_empty. now destruct (negative (deltaY ev)).
Qed.

(** C8.  A keydown event whose key is a bare modifier (shift, control,
    alt or meta, in any letter case) has the empty combo, and its
    dispatch invokes no callback and does nothing else, whatever bindings
    are registered. *)
Theorem bare_modifier_triggers_nothing ev st :
  type ev = keydown ->
  In (toLowerCase (key ev)) bareModifiers ->
  getComboFromEvent ev = ""
  /\ invoked (snd (dispatch call ev st)) = []
  /\ snd (dispatch call ev st) = [].
Proof.
  intros T M.
  assert (C : getComboFromEvent ev = "").
  { unfold getComboFromEvent. rewrite T.
    simpl in M. destruct M as [<- | [<- | [<- | [<- | []]]]]; reflexivity. }
  rewrite invoked_keydown, dispatch_keydown, C by assumption.
  auto.
Qed.

(** C9.  For every mousedown event [getComboFromEvent] returns the
    modifier prefix followed by ["middle_click"] when the button index is
    1, and by ["mouse"] and the decimal numeral of the button index plus
    one otherwise; the primary button (index 0) gives ["mouse1"]. *)
Theorem mousedown_combo ev :
  type ev = mousedown ->
  (button ev = 1 ->
   getComboFromEvent ev = (modifierPrefix ev ++ "middle_click")%string)
  /\ (button ev <> 1 ->
      getComboFromEvent ev
      = (modifierPrefix ev ++ "mouse" ++ numberToString (button ev + 1))%string)
  /\ (button ev = 0 ->
      getComboFromEvent ev = (modifierPrefix ev ++ "mouse1")%string).
Proof.
  intros T. rewrite getCombo_mouse by assumption.
  repeat split.
  - intros ->. reflexivity.
  - intros H. apply Z.eqb_neq in H. now rewrite H.
  - intros ->. reflexivity.
Qed.

(** C10.  [unbindAll] empties the registry: in every state reached from
    [unbindAll st] without a call of [bind] the registry holds no
    binding, and the dispatch of any event there invokes no callback (it
    performs no action at all). *)
Theorem unbindAll_silences st st' ev :
  withoutBind call (unbindAll st) st' ->
  bindings st' = []
  /\ invoked (snd (dispatch call ev st')) = []
  /\ snd (dispatch call ev st') = [].
Proof.
  intros R.
  assert (E : bindings st' = []).
  { destruct (bindings st') as [|b r] eqn:B; [reflexivity|].
    destruct (withoutBind_incl call _ _ b R). rewrite B. now left. }
  split; [assumption|].
  now rewrite (no_bindings_silent call ev st' E).
Qed.

(** C4, in the form that holds of the code.  Dispatch compares the
    canonical combo of the event with the combo string [bind] stored
    verbatim, by exact string equality; the token list computed by
    [parseCombo] is never consulted (replacing the [keys] of every
    binding changes no dispatch).  A binding whose combo holds an
    uppercase letter is never invoked by any event.  A binding whose
    combo holds white space or an angle bracket is never invoked by a
    wheel or mousedown event, nor by a keydown event whose key is one of
    the alias keys [" "], [">"], ["<"] itself or holds no white space and
    no angle bracket. *)
Theorem dispatch_compares_stored_combo ev st :
  (forall g,
      snd (dispatch call ev (rekey g st))
      = map (rekeyAction g) (snd (dispatch call ev st)))
  /\ (forall b,
         In b (invoked (snd (dispatch call ev st))) ->
         In b (bindings st) /\ combo b = getComboFromEvent ev)
  /\ (forall b,
         hasUpper (combo b) = true ->
         ~ In b (invoked (snd (dispatch call ev st))))
  /\ (forall b,
         plainEvent ev = true ->
         hasSpace (combo b) = true \/ hasAngle (combo b) = true ->
         ~ In b (invoked (snd (dispatch call ev st)))).
Proof.
  repeat split.
  - intros g. apply rekey_dispatch.
  - now apply invoked_stored in H.
  - now apply invoked_stored in H.
  - intros b U H. apply invoked_stored in H as [_ H].
    rewrite H, hasUpper_getCombo in U. discriminate.
  - intros b P [S | A] H; apply invoked_stored in H as [_ H]; rewrite H in *.
    + unfold hasSpace in S. rewrite plain_getCombo in S; auto; try discriminate.
      * apply lowerChar_isSpace.
      * intros c ->. reflexivity.
    + unfold hasAngle in A. rewrite plain_getCombo in A; auto; try discriminate.
      * apply lowerChar_isAngle.
      * intros c ->. apply orb_true_r.
Qed.

(** C5.  In a keydown dispatch the dispatcher calls [preventDefault] and
    [stopPropagation] exactly when the callback of some matched binding
    returns the boolean [false], and after no other return value.  In a
    wheel or mousedown dispatch the actions do not depend on what the
    callbacks return: a wheel dispatch never suppresses, and a mousedown
    dispatch suppresses exactly when the button is not the primary one
    and the combo is bound, which the listener decides before any
    callback is invoked. *)
Theorem suppression_decision ev st :
  (type ev = keydown ->
   (prevented (snd (dispatch call ev st)) = true <->
    exists b, In b (invoked (snd (dispatch call ev st)))
              /\ call (callback b) ev = VBoolean false)
   /\ stopped (snd (dispatch call ev st)) = prevented (snd (dispatch call ev st))
   /\ snd (dispatch call ev st)
      = flat_map (keyActions call ev) (invoked (snd (dispatch call ev st))))
  /\ (type ev = wheel ->
      (forall call', snd (dispatch call' ev st) = snd (dispatch call ev st))
      /\ prevented (snd (dispatch call ev st)) = false
      /\ stopped (snd (dispatch call ev st)) = false)
  /\ (type ev = mousedown ->
      (forall call', snd (dispatch call' ev st) = snd (dispatch call ev st))
      /\ prevented (snd (dispatch call ev st))
         = negb (button ev =? 0)%Z
           && comboBound (getComboFromEvent ev) (bindings st)
      /\ stopped (snd (dispatch call ev st))
         = prevented (snd (dispatch call ev st))
      /\ (snd (dispatch call ev st) = [] \/
          exists b, snd (dispatch call ev st)
                    = [PreventDefault; StopPropagation; Invoke b])).
Proof.
  split; [|split].
  - intros T.
    rewrite invoked_keydown, dispatch_keydown by assumption.
    destruct (getComboFromEvent ev =? "").
    { simpl. repeat split; try discriminate. intros (b & [] & _). }
    generalize (filter (matches (getComboFromEvent ev)) (bindings st)).
    intros l. repeat split.
    + induction l as [|b r IH]; simpl; [discriminate|].
      unfold prevented in *.
      destruct (isFalse (call (callback b) ev)) eqn:F; simpl.
      * intros _. exists b. split; [now left | now apply isFalse_iff].
      * intros H. destruct (IH H) as (x & Hx & Fx). exists x. auto.
    + induction l as [|b r IH]; simpl; [intros (b & [] & _)|].
      unfold prevented in *.
      intros (x & [<- | Hx] & Fx).
      * apply isFalse_iff in Fx. now rewrite Fx.
      * destruct (isFalse (call (callback b) ev)); simpl; [reflexivity|].
        apply IH. exists x. auto.
    + induction l as [|b r IH]; simpl; [reflexivity|].
      unfold stopped, prevented in *.
      destruct (isFalse (call (callback b) ev)); simpl; [reflexivity|apply IH].
  - intros T. split.
    + intros call'. unfold dispatch. now rewrite T.
    + rewrite dispatch_wheel by assumption.
      destruct (getComboFromEvent ev =? ""); [auto|].
      rewrite mouseLoop_find. now destruct (find _ _).
  - intros T. split.
    + intros call'. unfold dispatch. now rewrite T.
    + rewrite dispatch_mousedown by assumption.
      destruct (negb (button ev =? 0)%Z && _) eqn:B; simpl.
      2:{ repeat split. now left. }
      repeat split.
      apply andb_true_iff in B as [_ B].
      destruct (getComboFromEvent ev =? "") eqn:E.
      * apply String.eqb_eq in E.
        rewrite getCombo_mouse in E by assumption.
        exfalso. revert E. apply append_not_empty.
        now destruct (button ev =? 1)%Z.
      * right. rewrite mouseLoop_find.
        rewrite comboBound_existsb in B.
        destruct (find _ _) as [b|] eqn:F; [now exists b|].
        apply existsb_exists in B as (x & Hx & Mx).
        now rewrite (find_none _ _ F x Hx) in Mx.
Qed.

(** C6.  [bind] is to answer every invalid argument with the sentinel
    [-1], without raising and without touching the registry.  It does so
    when the combo is falsy (the empty string, [undefined], [null], [0],
    [NaN] or [false]) or the callback is not a function, and it accepts
    every non-empty string with a function: the call returns the new id
    and appends one binding that stores the combo verbatim.  It does not
    when the combo is a number other than [0] and [NaN], or the boolean
    [true]: the guard [!combo] lets these invalid combos through, and
    with a function as callback the call [combo.toLowerCase()] of
    [parseCombo] raises a [TypeError] out of [bind] where the sentinel
    was to be returned.  The registry is as it was. *)
Theorem bind_argument_check now rnd (c cb : value Callback) st :
  (truthy c = false \/ isFunction cb = false ->
   bind now rnd c cb st = (Return failure, st))
  /\ (forall s f,
         c = VString s -> s <> "" -> cb = VFunction f ->
         exists b,
           bind now rnd c cb st
           = (Return (now + rnd), setBindings (bindings st ++ [b]) st)
           /\ id b = now + rnd /\ combo b = s /\ callback b = f
           /\ Return (keys b) = parseCombo c)
  /\ (forall z f,
         c = VNumber (Num z) -> z <> 0 -> cb = VFunction f ->
         bind now rnd c cb st = (Throw TypeError, st))
  /\ (forall f,
         c = VBoolean true -> cb = VFunction f ->
         bind now rnd c cb st = (Throw TypeError, st)).
Proof.
  split; [|split; [|split]].
  - intros [T | F]; unfold bind.
    + rewrite T. now destruct cb.
    + destruct cb; try reflexivity. discriminate.
  - intros s f -> Hs ->. eexists. split; [now apply bind_accepts|].
    simpl. repeat split. unfold parseCombo. simpl.
    destruct (s =? "") eqn:E; [now apply String.eqb_eq in E | reflexivity].
  - intros z f -> Hz ->. unfold bind, parseCombo. simpl.
    destruct (Z.eqb_spec z 0); [contradiction | reflexivity].
  - intros f -> ->. reflexivity.
Qed.

(** C7.  In a registry whose bindings have non-zero ids and non-empty
    combos (every reachable registry), [unbind] with a number removes
    exactly one binding, the first one with that id, when there is one,
    and returns [true]; with a string it removes all bindings whose
    stored combo equals it and returns [true] when there was one.  In
    both cases it returns [true] exactly when the registry got shorter,
    and a call that returns [false] leaves the state as it was. *)
Theorem unbind_removes st :
  wellFormed st ->
  (forall z pre b post,
      bindings st = pre ++ b :: post ->
      id b = z ->
      (forall x, In x pre -> id x <> z) ->
      unbind (VNumber (Num z)) st = (true, setBindings (pre ++ post) st))
  /\ (forall n,
         (forall x, In x (bindings st) -> n <> Num (id x)) ->
         unbind (VNumber n) st = (false, st))
  /\ (forall s,
         unbind (VString s) st
         = (existsb (matches s) (bindings st),
            setBindings (filter (fun b => negb (matches s b)) (bindings st)) st))
  /\ (forall v,
         (fst (unbind v st) = true <->
          (List.length (bindings (snd (unbind v st)))
           < List.length (bindings st))%nat)
         /\ (fst (unbind v st) = false -> snd (unbind v st) = st)).
Proof.
  intros WF. unfold wellFormed in WF.
  split; [|split; [|split]].
  - intros z pre b post E I N.
    assert (Z0 : z <> 0).
    { rewrite Forall_forall in WF. subst z.
      apply (WF b). rewrite E. apply in_elt. }
    rewrite unbind_number. simpl.
    destruct (z =? 0)%Z eqn:Ez; [now apply Z.eqb_eq in Ez|]. simpl.
    destruct (findIndex _ _) as [i|] eqn:F.
    + apply findIndex_Some in F as (pre' & x & post' & E' & L & Px & Nx).
      simpl in Px. apply Z.eqb_eq in Px.
      assert (P : pre' = pre /\ x = b /\ post' = post).
      { rewrite E in E'. clear - E' I N Px Nx.
        revert pre' E' Nx. induction pre as [|a r IH]; intros [|a' r'] E' Nx.
        - injection E' as -> ->. auto.
        - injection E' as -> _. simpl in Nx.
          specialize (Nx a' (or_introl eq_refl)). apply Z.eqb_neq in Nx.
          congruence.
        - injection E' as -> _. now destruct (N x (or_introl eq_refl)).
        - injection E' as -> E'.
          destruct (IH (fun y Hy => N y (or_intror Hy)) r' E'
                      (fun y Hy => Nx y (or_intror Hy))) as (-> & -> & ->).
          auto. }
      destruct P as (-> & -> & ->).
      now rewrite E, <- L, splice1_middle.
    + apply findIndex_None with (x := b) in F.
      * simpl in F. apply Z.eqb_neq in F. congruence.
      * rewrite E. apply in_elt.
  - intros n N. rewrite unbind_number.
    destruct (truthy (VNumber n)); [|reflexivity].
    destruct (findIndex _ _) as [i|] eqn:F; [|reflexivity].
    apply findIndex_Some in F as (pre & x & post & E & _ & Px & _).
    destruct n as [|z]; [discriminate|]. simpl in Px. apply Z.eqb_eq in Px.
    destruct (N x); [rewrite E; apply in_elt | now rewrite Px].
  - intros s. destruct (String.eqb_spec s "") as [-> | Hs].
    + assert (X : existsb (matches "") (bindings st) = false).
      { apply not_true_is_false. intros H.
        apply existsb_exists in H as (x & Hx & Mx).
        rewrite Forall_forall in WF. apply (WF x Hx).
        now apply String.eqb_eq. }
      rewrite X, filter_none, setBindings_same by assumption. reflexivity.
    + now apply unbind_string.
  - intros v. destruct (unbind_reports v st) as [[R L] | [R E]].
    + rewrite R. repeat split; auto. discriminate.
    + rewrite R, E. repeat split; try discriminate; try lia.
Qed.

End Claims.

(** ** The claims on concrete registries *)

(** C1.  The dispatcher is to invoke every stored binding whose combo
    equals the canonical combo of the event, in insertion order.  The
    keydown listener does: two bindings of ["a"] are both invoked, in
    insertion order, by one press of [a].  The wheel and mousedown
    listeners do not: with two bindings of ["wheel_up"] a wheel event
    with [deltaY = -10] invokes the first one only, and with two bindings
    of ["mouse3"] a press of the right button invokes the first one
    only, because [handleMouseEvent] returns after its first match. *)
Theorem mouse_dispatch_stops_at_first_match :
  getComboFromEvent (scroll (-10)) = "wheel_up"
  /\ filter (matches "wheel_up") (bindings doublyBound) = [increaseUp; announceUp]
  /\ invoked (snd (dispatch returnsFalse (scroll (-10)) doublyBound)) = [increaseUp]
  /\ getComboFromEvent (click 2) = "mouse3"
  /\ filter (matches "mouse3") (bindings doublyBound) = [increaseRight; announceRight]
  /\ invoked (snd (dispatch returnsFalse (click 2) doublyBound)) = [increaseRight]
  /\ getComboFromEvent (press "a") = "a"
  /\ invoked (snd (dispatch returnsFalse (press "a") doublyBound))
     = [increaseA; announceA].
Proof.
  repeat split.
Qed.

(** C4, as stated, fails: a binding stored under ["shift+ a"], with white
    space after the ["+"], is invoked by the keydown event with the shift
    flag and key [" a"], and a binding stored under ["a>"] by the keydown
    event with key ["a>"]. *)
Lemma spaced_combo_is_invoked :
  spaceAroundPlus (combo spaced) = true
  /\ In spaced (invoked (snd (dispatch returnsFalse (shiftPress " a") offCanonical)))
  /\ hasAngle (combo angled) = true
  /\ In angled (invoked (snd (dispatch returnsFalse (press "a>") offCanonical))).
Proof.
  repeat split; simpl; auto.
Qed.

(** *** Instances of the theorems *)

(** Shift with [">"] and shift with ["."]; [bind("shift+.", increase)]
    on the initial registry, then shift with [">"]. *)
Lemma alias_keys_share_combo_witness :
  getComboFromEvent (shiftPress ">") = getComboFromEvent (shiftPress ".")
  /\ exists st' b,
      bind clock dice (VString "shift+.") (VFunction "increase") initial
      = (Return (id b), st')
      /\ bindings st' = [b]
      /\ callback b = "increase"
      /\ invoked (snd (dispatch returnsFalse (shiftPress ">") st')) = [b].
Proof.
  split.
  - apply (proj1 (alias_keys_share_combo returnsFalse));
      [reflexivity | reflexivity | repeat split | constructor].
  - apply (proj2 (alias_keys_share_combo returnsFalse)); reflexivity.
Defined.

(** Scrolling by -10, by 10 and, with shift and alt, by -1/2. *)
Lemma wheel_combo_witness :
  getComboFromEvent (scroll (-10)) = "wheel_up"
  /\ getComboFromEvent (scroll 10) = "wheel_down"
  /\ getComboFromEvent (wheelEvent true false true false (-1 # 2))
     = "shift+alt+wheel_up".
Proof.
  split; [|split].
  - apply (proj1 (wheel_combo (scroll (-10)) eq_refl)).
    reflexivity.
  - apply (proj1 (proj2 (wheel_combo (scroll 10) eq_refl))).
    discriminate.
  - apply (proj1 (wheel_combo (wheelEvent true false true false (-1 # 2)) eq_refl)).
    reflexivity.
Defined.

(** Bindings stored as ["Shift+A"] and ["shift+>"] are not invoked by
    shift with [">"]. *)
Lemma dispatch_compares_stored_combo_witness :
  hasUpper (combo upperCased) = true
  /\ plainEvent (shiftPress ">") = true
  /\ hasAngle (combo shiftGreater) = true
  /\ ~ In upperCased (invoked (snd (dispatch returnsFalse (shiftPress ">") offCanonical)))
  /\ ~ In shiftGreater
         (invoked (snd (dispatch returnsFalse (shiftPress ">") offCanonical))).
Proof.
  split; [reflexivity|split; [reflexivity|split; [reflexivity|split]]].
  - apply (proj1 (proj2 (proj2 (dispatch_compares_stored_combo
                                  returnsFalse (shiftPress ">") offCanonical)))).
    reflexivity.
  - apply (proj2 (proj2 (proj2 (dispatch_compares_stored_combo
                                  returnsFalse (shiftPress ">") offCanonical)))).
    + reflexivity.
    + right. reflexivity.
Defined.

(** A key shortcut suppresses when its callback returns [false] and not
    when it returns [undefined]; wheel and middle-button dispatch do not
    look at the result. *)
Lemma suppression_decision_witness :
  prevented (snd (dispatch returnsFalse (shiftPress ">") pointerShortcuts)) = true
  /\ prevented (snd (dispatch returnsUndefined (shiftPress ">") pointerShortcuts))
     = false
  /\ prevented (snd (dispatch returnsFalse (scroll (-10)) pointerShortcuts)) = false
  /\ snd (dispatch returnsUndefined (click 1) pointerShortcuts)
     = snd (dispatch returnsFalse (click 1) pointerShortcuts).
Proof.
  split; [|split; [|split]].
  - apply (proj1 (proj1 (suppression_decision returnsFalse (shiftPress ">")
                           pointerShortcuts) eq_refl)).
    exists increase. split; [left; reflexivity | reflexivity].
  - apply not_true_is_false. intros H.
    apply (proj1 (proj1 (suppression_decision returnsUndefined (shiftPress ">")
                           pointerShortcuts) eq_refl)) in H.
    destruct H as (b & _ & H). discriminate H.
  - apply (proj1 (proj2 (suppression_decision returnsFalse (scroll (-10))
                           pointerShortcuts)) eq_refl).
  - apply (proj2 (proj2 (suppression_decision returnsFalse (click 1)
                           pointerShortcuts)) eq_refl).
Defined.

(** The empty combo, a callback that is [undefined], the combo
    ["Shift + A"], the combo [42] and the combo [true]. *)
Lemma bind_argument_check_witness :
  bind clock dice (VString "") (VFunction "increase") initial
  = (Return failure, initial)
  /\ bind clock dice (VString "shift+.") (@VUndefined string) initial
     = (Return failure, initial)
  /\ (exists b,
         bind clock dice (VString "Shift + A") (VFunction "increase") initial
         = (Return (clock + dice), registryOf [b])
         /\ combo b = "Shift + A" /\ keys b = ["shift"; "a"])
  /\ bind clock dice (VNumber (Num 42)) (VFunction "increase") initial
     = (Throw TypeError, initial)
  /\ bind clock dice (VBoolean true) (VFunction "increase") initial
     = (Throw TypeError, initial).
Proof.
  split; [|split; [|split; [|split]]].
  - apply (proj1 (bind_argument_check _ _ _ _ _)). left. reflexivity.
  - apply (proj1 (bind_argument_check _ _ _ _ _)). right. reflexivity.
  - destruct (proj1 (proj2 (bind_argument_check clock dice
                              (VString "Shift + A") (VFunction "increase") initial))
                    "Shift + A" "increase" eq_refl ltac:(discriminate) eq_refl)
      as (b & B & I & C & F & K).
    exists b. split; [|split].
    + exact B.
    + exact C.
    + simpl in K. now injection K.
  - apply (proj1 (proj2 (proj2 (bind_argument_check clock dice
                                  (VNumber (Num 42)) (VFunction "increase")
                                  initial)))
             42 "increase"); [reflexivity | discriminate | reflexivity].
  - apply (proj2 (proj2 (proj2 (bind_argument_check clock dice
                                  (VBoolean true) (VFunction "increase")
                                  initial)))
             "increase"); reflexivity.
Defined.

(** Removal by id 12, by the absent id 99, by the doubly bound combo
    ["shift+."] and by the unbound combo ["wheel_up"]. *)
Lemma unbind_removes_witness :
  wellFormed shortcuts
  /\ unbind (VNumber (Num 12)) shortcuts = (true, registryOf [increase; reset])
  /\ unbind (VNumber (Num 99)) shortcuts = (false, shortcuts)
  /\ unbind (VString "shift+.") shortcuts = (true, registryOf [decrease])
  /\ unbind (VString "wheel_up") shortcuts = (false, shortcuts).
Proof.
  assert (WF : wellFormed shortcuts).
  { repeat constructor; discriminate. }
  split; [exact WF|].
  destruct (unbind_removes shortcuts WF) as (ById & Absent & ByCombo & _).
  split; [|split; [|split]].
  - apply (ById 12 [increase] decrease [reset]); [reflexivity | reflexivity|].
    intros x [<- | []]. discriminate.
  - apply Absent. intros x [<- | [<- | [<- | []]]]; discriminate.
  - apply (ByCombo "shift+.").
  - apply (ByCombo "wheel_up").
Defined.

(** A press of the shift key alone, with bindings stored as ["shift"]
    and ["shift+shift"]. *)
Lemma bare_modifier_triggers_nothing_witness :
  getComboFromEvent (shiftPress "Shift") = ""
  /\ invoked (snd (dispatch returnsFalse (shiftPress "Shift") modifierNamed)) = []
  /\ snd (dispatch returnsFalse (shiftPress "Shift") modifierNamed) = [].
Proof.
  apply (bare_modifier_triggers_nothing returnsFalse).
  - reflexivity.
  - left. reflexivity.
Defined.

(** The middle button, the right button with ctrl, the primary button. *)
Lemma mousedown_combo_witness :
  getComboFromEvent (click 1) = "middle_click"
  /\ getComboFromEvent (mouseEvent false true false false 2) = "ctrl+mouse3"
  /\ getComboFromEvent (click 0) = "mouse1".
Proof.
  split; [|split].
  - apply (proj1 (mousedown_combo (click 1) eq_refl)).
    reflexivity.
  - apply (proj1 (proj2 (mousedown_combo (mouseEvent false true false false 2) eq_refl))).
    discriminate.
  - apply (proj2 (proj2 (mousedown_combo (click 0) eq_refl))).
    reflexivity.
Defined.

(** [unbindAll] on the shortcuts, a press of the shift key, an [unbind],
    and then shift with [">"]. *)
Lemma unbindAll_silences_witness :
  withoutBind returnsFalse (unbindAll shortcuts)
    (snd (unbind (VString "shift+.")
            (fst (dispatch returnsFalse (shiftPress "Shift") (unbindAll shortcuts)))))
  /\ invoked
       (snd (dispatch returnsFalse (shiftPress ">")
               (snd (unbind (VString "shift+.")
                       (fst (dispatch returnsFalse (shiftPress "Shift")
                               (unbindAll shortcuts)))))))
     = [].
Proof.
  assert (R : withoutBind returnsFalse (unbindAll shortcuts)
                (snd (unbind (VString "shift+.")
                        (fst (dispatch returnsFalse (shiftPress "Shift")
                                (unbindAll shortcuts)))))).
  { apply nb_unbind, nb_dispatch, nb_refl. }
  split; [exact R|].
  apply (unbindAll_silences returnsFalse _ _ (shiftPress ">") R).
Defined.

(** ** Further facts: tokens, [split] and [join] *)

Lemma split_plus_not_nil (s : string) : split_plus s <> [].
Proof.
  destruct s as [|c r]; simpl; [discriminate|].
  destruct (Ascii.eqb c "+"); [discriminate|].
  destruct (split_plus r); discriminate.
Qed.

(** Joining the parts of a split gives the string back. *)
Lemma join_split (s : string) : join_plus (split_plus s) = s.
Proof.
  induction s as [|c r IH]; simpl; [reflexivity|].
  destruct (Ascii.eqb_spec c "+") as [-> | N].
  - pose proof (split_plus_not_nil r) as NE.
    simpl. destruct (split_plus r) as [|h t]; [contradiction|].
    now rewrite IH.
  - pose proof (split_plus_not_nil r) as NE.
    destruct (split_plus r) as [|h t]; [contradiction|].
    simpl in *. destruct t; simpl; now rewrite <- IH.
Qed.

Lemma split_plus_single (x : string) : hasPlus x = false -> split_plus x = [x].
Proof.
  unfold hasPlus, isPlus.
  induction x as [|c r IH]; simpl; [reflexivity|].
  intros H. apply orb_false_iff in H as [H1 H2].
  now rewrite H1, (IH H2).
Qed.

Lemma split_plus_cons (x r : string) :
  hasPlus x = false ->
  split_plus (x ++ String "+" r) = x :: split_plus r.
Proof.
  unfold hasPlus, isPlus.
  induction x as [|c x IH]; simpl; [reflexivity|].
  intros H. apply orb_false_iff in H as [H1 H2].
  now rewrite H1, (IH H2).
Qed.

(** Splitting a join of parts without ["+"] gives the parts back. *)
Lemma split_join (l : list string) :
  l <> [] ->
  Forall (fun x => hasPlus x = false) l ->
  split_plus (join_plus l) = l.
Proof.
  induction l as [|x r IH]; [congruence|].
  intros _ F. inversion F as [|? ? Hx Hr]; subst.
  destruct r as [|y r'].
  - simpl. now apply split_plus_single.
  - change (join_plus (x :: y :: r')) with (x ++ String "+" (join_plus (y :: r')))%string.
    rewrite split_plus_cons by assumption.
    rewrite IH; [reflexivity | discriminate | assumption].
Qed.

Lemma length_split_plus (s : string) :
  List.length (split_plus s) = S (countPlus s).
Proof.
  induction s as [|c r IH]; simpl; [reflexivity|].
  unfold isPlus. destruct (Ascii.eqb c "+"); simpl; [now rewrite IH|].
  destruct (split_plus r); simpl in *; [discriminate | exact IH].
Qed.

Lemma countPlus_toLowerCase (s : string) : countPlus (toLowerCase s) = countPlus s.
Proof.
  induction s as [|c r IH]; simpl; [reflexivity|].
  rewrite IH. f_equal.
  each_ascii c; reflexivity.
Qed.

(** The code units of the parts are code units of the string. *)
Lemma anyChar_split_plus (p : ascii -> bool) (s : string) :
  anyChar p s = false ->
  Forall (fun t => anyChar p t = false) (split_plus s).
Proof.
  induction s as [|c r IH]; simpl; intros H.
  - repeat constructor.
  - apply orb_false_iff in H as [H1 H2]. specialize (IH H2).
    destruct (Ascii.eqb c "+"); [now constructor|].
    destruct (split_plus r) as [|h t]; [repeat constructor; simpl; now rewrite H1|].
    inversion IH; subst. constructor; [simpl; now rewrite H1 | assumption].
Qed.

Lemma anyChar_trimStart (p : ascii -> bool) (s : string) :
  anyChar p s = false -> anyChar p (trimStart s) = false.
Proof.
  induction s as [|c r IH]; simpl; [reflexivity|].
  intros H. apply orb_false_iff in H as [H1 H2].
  destruct (isWhiteSpace c); [now apply IH | simpl; now rewrite H1].
Qed.

Lemma anyChar_trimEnd (p : ascii -> bool) (s : string) :
  anyChar p s = false -> anyChar p (trimEnd s) = false.
Proof.
  induction s as [|c r IH]; simpl; [reflexivity|].
  intros H. apply orb_false_iff in H as [H1 H2]. specialize (IH H2).
  destruct (trimEnd r); [destruct (isWhiteSpace c); simpl; now rewrite ?H1|].
  simpl in *. now rewrite H1.
Qed.

Lemma anyChar_trim (p : ascii -> bool) (s : string) :
  anyChar p s = false -> anyChar p (trim s) = false.
Proof.
  intros H. unfold trim. now apply anyChar_trimEnd, anyChar_trimStart.
Qed.

Lemma trimStart_start (s : string) : startsWithSpace (trimStart s) = false.
Proof.
  induction s as [|c r IH]; simpl; [reflexivity|].
  destruct (isWhiteSpace c) eqn:E; [assumption | simpl; assumption].
Qed.

Lemma trimEnd_end (s : string) : endsWithSpace (trimEnd s) = false.
Proof.
  induction s as [|c r IH]; simpl; [reflexivity|].
  destruct (trimEnd r) as [|d r'] eqn:E.
  - destruct (isWhiteSpace c) eqn:S; simpl; [reflexivity | assumption].
  - exact IH.
Qed.

Lemma trimEnd_start (s : string) :
  startsWithSpace s = false -> startsWithSpace (trimEnd s) = false.
Proof.
  destruct s as [|c r]; simpl; [reflexivity|].
  intros H. destruct (trimEnd r); [rewrite H|]; simpl; assumption.
Qed.

Lemma trimStart_fixed (s : string) : startsWithSpace s = false -> trimStart s = s.
Proof.
  destruct s as [|c r]; simpl; [reflexivity|]. now intros ->.
Qed.

Lemma trimEnd_fixed (s : string) : endsWithSpace s = false -> trimEnd s = s.
Proof.
  induction s as [|c r IH]; simpl; [reflexivity|].
  destruct r as [|d r'].
  - simpl. now intros ->.
  - intros H. rewrite (IH H). reflexivity.
Qed.

(** [trim] leaves a string alone that neither starts nor ends with white
    space. *)
Lemma trim_fixed (s : string) :
  startsWithSpace s = false -> endsWithSpace s = false -> trim s = s.
Proof.
  intros H1 H2. unfold trim. now rewrite trimStart_fixed, trimEnd_fixed.
Qed.

Lemma trim_trimmed (s : string) :
  startsWithSpace (trim s) = false /\ endsWithSpace (trim s) = false.
Proof.
  unfold trim. split.
  - apply trimEnd_start, trimStart_start.
  - apply trimEnd_end.
Qed.

Lemma trim_idem (s : string) : trim (trim s) = trim s.
Proof.
  destruct (trim_trimmed s). now apply trim_fixed.
Qed.

Lemma no_space_ends (s : string) :
  hasWhiteSpace s = false -> startsWithSpace s = false /\ endsWithSpace s = false.
Proof.
  unfold hasWhiteSpace. induction s as [|c r IH]; simpl; [auto|].
  intros H. apply orb_false_iff in H as [H1 H2].
  destruct (IH H2) as [_ E]. split; [assumption|].
  destruct r; assumption.
Qed.

Lemma toLowerCase_fixed (s : string) : hasUpper s = false -> toLowerCase s = s.
Proof.
  unfold hasUpper. induction s as [|c r IH]; simpl; [reflexivity|].
  intros H. apply orb_false_iff in H as [H1 H2].
  rewrite (IH H2). unfold lowerChar. now rewrite H1.
Qed.

(** X1.  The tokens [parseCombo] computes for a non-empty string: one
    more than the string has ["+"] signs, none of them with an uppercase
    letter, none starting or ending with white space. *)
Theorem parseCombo_tokens {Callback : Type} (s : string) :
  s <> "" ->
  exists ks,
    @parseCombo Callback (VString s) = Return ks
    /\ List.length ks = S (countPlus s)
    /\ Forall (fun k => hasUpper k = false
                        /\ startsWithSpace k = false
                        /\ endsWithSpace k = false) ks.
Proof.
  intros Hs. exists (map trim (split_plus (toLowerCase s))).
  split; [|split].
  - unfold parseCombo. simpl.
    destruct (s =? "") eqn:E; [now apply String.eqb_eq in E | reflexivity].
  - now rewrite length_map, length_split_plus, countPlus_toLowerCase.
  - apply Forall_map.
    pose proof (anyChar_split_plus isUpper _ (hasUpper_toLowerCase s)) as F.
    revert F. apply Forall_impl. intros t Ht.
    destruct (trim_trimmed t). repeat split; auto.
    now apply anyChar_trim.
Qed.

(** The combos [" Shift + A"] and ["ctrl++"]. *)
Lemma parseCombo_tokens_witness :
  (exists ks,
      @parseCombo string (VString " Shift + A") = Return ks
      /\ List.length ks = 2%nat
      /\ Forall (fun k => hasUpper k = false
                          /\ startsWithSpace k = false
                          /\ endsWithSpace k = false) ks)
  /\ (exists ks,
         @parseCombo string (VString "ctrl++") = Return ks
         /\ List.length ks = 3%nat
         /\ Forall (fun k => hasUpper k = false
                             /\ startsWithSpace k = false
                             /\ endsWithSpace k = false) ks).
Proof.
  split.
  - apply (@parseCombo_tokens string " Shift + A"). discriminate.
  - apply (@parseCombo_tokens string "ctrl++"). discriminate.
Defined.

(** ** Further facts: the combo of an event and its tokens *)

Lemma getCombo_token (ev : event) (tok : string) :
  primaryToken ev = Some tok ->
  getComboFromEvent ev = join_plus (modifierKeys ev ++ [tok]).
Proof.
  unfold primaryToken, getComboFromEvent.
  destruct (type ev);
    try (destruct (isBareModifier (toLowerCase (key ev))); [discriminate|]);
    try destruct (button ev =? 1)%Z; now intros [= <-].
Qed.

Lemma modifierKeys_plain (ev : event) :
  Forall (fun m => hasPlus m = false /\ trim m = m) (modifierKeys ev).
Proof.
  unfold modifierKeys.
  destruct (shiftKey ev), (ctrlKey ev), (altKey ev), (metaKey ev);
    repeat constructor.
Qed.

(** The tokens of wheel and mousedown events hold no ["+"] and no white
    space. *)
Lemma pointer_token_plain (ev : event) :
  type ev = wheel \/ type ev = mousedown ->
  exists tok,
    primaryToken ev = Some tok /\ tok <> "" /\
    hasPlus tok = false /\ hasWhiteSpace tok = false.
Proof.
  unfold primaryToken. intros [T | T]; rewrite T; eexists; (split; [reflexivity|]).
  - destruct (negative (deltaY ev)); repeat split; discriminate.
  - destruct (button ev =? 1)%Z; [repeat split; discriminate|].
    split; [discriminate|].
    unfold hasPlus, hasWhiteSpace. rewrite !anyChar_append.
    rewrite !anyChar_numberToString; [split; reflexivity | |];
      intros c; each_ascii c; cbv; congruence.
Qed.

(** X2.  The token list [parseCombo] computes from the combo of an event
    is the list of tokens [getComboFromEvent] joined: the modifier tokens
    of the event followed by its primary token, provided that token is
    not empty, holds no ["+"] and neither starts nor ends with white
    space. *)
Theorem parseCombo_event_combo {Callback : Type} (ev : event) (tok : string) :
  primaryToken ev = Some tok ->
  tok <> "" ->
  hasPlus tok = false ->
  startsWithSpace tok = false ->
  endsWithSpace tok = false ->
  @parseCombo Callback (VString (getComboFromEvent ev))
  = Return (modifierKeys ev ++ [tok]).
Proof.
  intros P N Hp Hs He.
  pose proof (getCombo_token ev tok P) as C.
  assert (NE : getComboFromEvent ev <> "").
  { rewrite C, join_modifiers. now apply append_not_empty. }
  unfold parseCombo. simpl.
  destruct (getComboFromEvent ev =? "") eqn:E; [now apply String.eqb_eq in E|].
  simpl. rewrite toLowerCase_fixed by apply hasUpper_getCombo.
  assert (F : Forall (fun m => hasPlus m = false /\ trim m = m)
                (modifierKeys ev ++ [tok])).
  { apply Forall_app. split; [apply modifierKeys_plain|].
    repeat constructor; [assumption | now apply trim_fixed]. }
  rewrite C, split_join.
  - f_equal. clear - F.
    induction F as [|x l [_ Hx] _ IH]; simpl; [reflexivity|].
    now rewrite Hx, IH.
  - now destruct (modifierKeys ev).
  - revert F. apply Forall_impl. now intros x [Hx _].
Qed.

(** Shift with [">"], and scrolling up with ctrl and alt. *)
Lemma parseCombo_event_combo_witness :
  @parseCombo string (VString (getComboFromEvent (shiftPress ">")))
  = Return ["shift"; "."]
  /\ @parseCombo string
       (VString (getComboFromEvent (wheelEvent false true true false (-3))))
     = Return ["ctrl"; "alt"; "wheel_up"].
Proof.
  split.
  - apply (@parseCombo_event_combo string (shiftPress ">") ".");
      first [reflexivity | discriminate].
  - apply (@parseCombo_event_combo string
             (wheelEvent false true true false (-3)) "wheel_up");
      first [reflexivity | discriminate].
Defined.

Lemma numberToString_inj (z1 z2 : Z) :
  numberToString z1 = numberToString z2 -> z1 = z2.
Proof.
  unfold numberToString. intros H.
  apply DecimalZ.to_int_inj.
  assert (I : forall z, NilZero.int_of_string (NilZero.string_of_int (Z.to_int z))
                        = Some (Z.to_int z)).
  { intros z. apply NilZero.isi; destruct z; simpl; try discriminate;
      intros [= E]; now apply DecimalPos.Unsigned.to_uint_nonnil in E. }
  pose proof (I z1) as I1. rewrite H, I in I1. now injection I1.
Qed.

(** A modifier prefix followed by a token that starts with [w] or [m]
    determines the modifier flags and the token. *)
Lemma prefix_token_cancel (e1 e2 : event) (a1 a2 : ascii) (r1 r2 : string) :
  a1 = "w"%char \/ a1 = "m"%char ->
  a2 = "w"%char \/ a2 = "m"%char ->
  (modifierPrefix e1 ++ String a1 r1)%string
  = (modifierPrefix e2 ++ String a2 r2)%string ->
  sameModifiers e1 e2 /\ String a1 r1 = String a2 r2.
Proof.
  unfold modifierPrefix, sameModifiers.
  intros [-> | ->] [-> | ->];
    destruct (shiftKey e1), (ctrlKey e1), (altKey e1), (metaKey e1),
      (shiftKey e2), (ctrlKey e2), (altKey e2), (metaKey e2);
    simpl; intros H;
    first [discriminate H
          | split; [repeat split | congruence]].
Qed.

(** X3.  Distinct pointer inputs never share a combo: when a wheel or
    mousedown event has the combo of another wheel or mousedown event,
    the two events have the same type and the same modifier flags, and
    the same scroll direction (for wheel events) or the same button (for
    mousedown events). *)
Theorem pointer_combo_injective (e1 e2 : event) :
  type e1 = wheel \/ type e1 = mousedown ->
  type e2 = wheel \/ type e2 = mousedown ->
  getComboFromEvent e1 = getComboFromEvent e2 ->
  type e1 = type e2
  /\ sameModifiers e1 e2
  /\ (type e1 = wheel -> negative (deltaY e1) = negative (deltaY e2))
  /\ (type e1 = mousedown -> button e1 = button e2).
Proof.
  intros [T1 | T1] [T2 | T2];
    rewrite ?(getCombo_wheel e1), ?(getCombo_wheel e2),
      ?(getCombo_mouse e1), ?(getCombo_mouse e2) by assumption;
    rewrite T1, T2; intros H.
  - destruct (negative (deltaY e1)), (negative (deltaY e2));
      apply prefix_token_cancel in H as [M E]; auto;
      try discriminate E;
      (split; [reflexivity | split; [exact M | split; [reflexivity | discriminate]]]).
  - exfalso.
    destruct (negative (deltaY e1)), (button e2 =? 1)%Z;
      apply prefix_token_cancel in H as [M E]; auto; discriminate.
  - exfalso.
    destruct (negative (deltaY e2)), (button e1 =? 1)%Z;
      apply prefix_token_cancel in H as [M E]; auto; discriminate.
  - destruct (Z.eqb_spec (button e1) 1) as [B1 | B1],
      (Z.eqb_spec (button e2) 1) as [B2 | B2];
      apply prefix_token_cancel in H as [M E]; auto;
      try discriminate E;
      (split; [reflexivity | split; [exact M | split; [discriminate | intros _]]]).
    + congruence.
    + injection E as E. apply numberToString_inj in E. lia.
Qed.

(** Scrolling up by 10 and by 3. *)
Lemma pointer_combo_injective_witness :
  getComboFromEvent (scroll (-10)) = getComboFromEvent (scroll (-3))
  /\ sameModifiers (scroll (-10)) (scroll (-3))
  /\ negative (deltaY (scroll (-10))) = negative (deltaY (scroll (-3))).
Proof.
  destruct (pointer_combo_injective (scroll (-10)) (scroll (-3))
              (or_introl eq_refl) (or_introl eq_refl) eq_refl)
    as (_ & M & W & _).
  split; [reflexivity | split; [exact M | exact (W eq_refl)]].
Defined.

(** ** Further facts: how the operations of the registry compose *)

Section Composition.

Context {Callback : Type}.
Variable call : Callback -> event -> value Callback.

Implicit Types (b : binding Callback) (bs : list (binding Callback))
  (st : state Callback) (v : value Callback) (ev : event).

Lemma findIndex_first (p : binding Callback -> bool) (pre post : list (binding Callback)) b :
  p b = true ->
  (forall x, In x pre -> p x = false) ->
  findIndex p (pre ++ b :: post) = Some (List.length pre).
Proof.
  intros Pb. induction pre as [|a r IH]; simpl; intros N.
  - now rewrite Pb.
  - rewrite (N a (or_introl eq_refl)), IH; [reflexivity|].
    intros x Hx. apply N. now right.
Qed.

Lemma unbind_id_first z (pre post : list (binding Callback)) b st :
  z <> 0 ->
  bindings st = pre ++ b :: post ->
  id b = z ->
  (forall x, In x pre -> id x <> z) ->
  unbind (VNumber (Num z)) st = (true, setBindings (pre ++ post) st).
Proof.
  intros Z0 E I N. rewrite unbind_number. simpl.
  destruct (z =? 0)%Z eqn:Ez; [now apply Z.eqb_eq in Ez|]. simpl.
  rewrite E, findIndex_first, splice1_middle; [reflexivity | |].
  - simpl. now apply Z.eqb_eq.
  - intros x Hx. simpl. apply Z.eqb_neq. now apply N.
Qed.

(** X4.  Unbinding by the id [bind] has just returned undoes the [bind]:
    when the combo is a non-empty string, the new id is not zero and no
    stored binding has it, [unbind(id)] returns [true] and the registry
    is what it was before the [bind]. *)
Theorem bind_then_unbind now rnd (c : string) (f : Callback) st :
  c <> "" ->
  now + rnd <> 0 ->
  (forall x, In x (bindings st) -> id x <> now + rnd) ->
  fst (bind now rnd (VString c) (VFunction f) st) = Return (now + rnd)
  /\ unbind (VNumber (Num (now + rnd)))
       (snd (bind now rnd (VString c) (VFunction f) st))
     = (true, st).
Proof.
  intros Hc Z0 Fresh. rewrite bind_accepts by assumption. cbn [fst snd].
  split; [reflexivity|].
  set (added := {| id := now + rnd;
                   keys := map trim (split_plus (toLowerCase c));
                   combo := c; callback := f |}).
  rewrite (unbind_id_first (now + rnd) (bindings st) [] added
             (setBindings (bindings st ++ [added]) st) Z0 eq_refl eq_refl Fresh).
  rewrite app_nil_r. now destruct st.
Qed.

(** X5.  Ids are not unique.  When a stored binding already has the id
    a [bind] draws, [unbind(id)] removes the older binding, the first one
    with that id, and the binding just added stays in the registry. *)
Theorem unbind_after_id_collision now rnd (c : string) (f : Callback) st
  (pre post : list (binding Callback)) (old : binding Callback) :
  c <> "" ->
  now + rnd <> 0 ->
  bindings st = pre ++ old :: post ->
  id old = now + rnd ->
  (forall x, In x pre -> id x <> now + rnd) ->
  exists added,
    bindings (snd (bind now rnd (VString c) (VFunction f) st))
    = bindings st ++ [added]
    /\ combo added = c /\ callback added = f /\ id added = now + rnd
    /\ fst (unbind (VNumber (Num (now + rnd)))
              (snd (bind now rnd (VString c) (VFunction f) st))) = true
    /\ bindings (snd (unbind (VNumber (Num (now + rnd)))
                        (snd (bind now rnd (VString c) (VFunction f) st))))
       = pre ++ post ++ [added].
Proof.
  intros Hc Z0 E I N. rewrite bind_accepts by assumption. cbn [fst snd].
  set (added := {| id := now + rnd;
                   keys := map trim (split_plus (toLowerCase c));
                   combo := c; callback := f |}).
  exists added. split; [reflexivity|].
  split; [reflexivity | split; [reflexivity | split; [reflexivity|]]].
  rewrite (unbind_id_first (now + rnd) pre (post ++ [added]) old
             (setBindings (bindings st ++ [added]) st) Z0); auto.
  simpl. now rewrite E, <- app_assoc.
Qed.

(** A dispatch does nothing when no stored binding has the combo of the
    event. *)
Lemma silent_when_unbound ev st :
  existsb (matches (getComboFromEvent ev)) (bindings st) = false ->
  snd (dispatch call ev st) = [].
Proof.
  intros X.
  assert (K : keyLoop call ev (getComboFromEvent ev) (bindings st) = []).
  { rewrite keyLoop_actions.
    induction (bindings st) as [|b r IH]; simpl in *; [reflexivity|].
    apply orb_false_iff in X as [X1 X2]. rewrite X1. now apply IH. }
  assert (M : mouseLoop (getComboFromEvent ev) (bindings st) = []).
  { rewrite mouseLoop_find.
    destruct (find _ _) as [b|] eqn:F; [|reflexivity].
    apply find_some in F as [F1 F2].
    assert (Y : existsb (matches (getComboFromEvent ev)) (bindings st) = true)
      by (apply existsb_exists; eauto).
    congruence. }
  destruct (type ev) eqn:T.
  - rewrite (dispatch_keydown call) by assumption.
    rewrite <- keyLoop_actions, K. now destruct (_ =? _).
  - unfold dispatch, handleKeyEvent. now rewrite T.
  - rewrite (dispatch_wheel call) by assumption. rewrite M. now destruct (_ =? _).
  - rewrite (dispatch_mousedown call) by assumption.
    now rewrite comboBound_existsb, X, andb_false_r.
Qed.

(** What a dispatch does depends only on the bindings that have the
    combo of the event. *)
Lemma dispatch_matching ev st st' :
  filter (matches (getComboFromEvent ev)) (bindings st')
  = filter (matches (getComboFromEvent ev)) (bindings st) ->
  snd (dispatch call ev st') = snd (dispatch call ev st).
Proof.
  intros F.
  assert (M : forall c bs, mouseLoop c bs
                           = match filter (matches c) bs with
                             | b :: _ => [Invoke b]
                             | [] => []
                             end).
  { intros c bs. induction bs as [|b r IH]; simpl; [reflexivity|].
    unfold matches at 1. now destruct (combo b =? c). }
  assert (B : forall c bs, comboBound c bs
                           = match filter (matches c) bs with
                             | _ :: _ => true
                             | [] => false
                             end).
  { intros c bs. induction bs as [|b r IH]; simpl; [reflexivity|].
    unfold matches at 1. now destruct (combo b =? c). }
  destruct (type ev) eqn:T.
  - rewrite !(dispatch_keydown call) by assumption. now rewrite F.
  - unfold dispatch, handleKeyEvent. now rewrite T.
  - rewrite !(dispatch_wheel call) by assumption. now rewrite !M, F.
  - rewrite !(dispatch_mousedown call) by assumption. now rewrite !M, !B, F.
Qed.

Lemma filter_other (c c' : string) bs :
  c' <> c ->
  filter (matches c') (filter (fun b => negb (matches c b)) bs)
  = filter (matches c') bs.
Proof.
  intros N. unfold matches.
  induction bs as [|b r IH]; simpl; [reflexivity|].
  destruct (String.eqb_spec (combo b) c) as [E | E]; simpl.
  - destruct (String.eqb_spec (combo b) c'); [congruence | exact IH].
  - destruct (combo b =? c'); now rewrite IH.
Qed.

(** X6.  After [unbind(combo)] with a non-empty string, an event with
    that combo does nothing at all, every other event does exactly what
    it did before, and a second [unbind(combo)] returns [false] and
    changes nothing. *)
Theorem unbind_combo_silences (c : string) st :
  c <> "" ->
  (forall ev, getComboFromEvent ev = c ->
              snd (dispatch call ev (snd (unbind (VString c) st))) = [])
  /\ (forall ev, getComboFromEvent ev <> c ->
                 snd (dispatch call ev (snd (unbind (VString c) st)))
                 = snd (dispatch call ev st))
  /\ unbind (VString c) (snd (unbind (VString c) st))
     = (false, snd (unbind (VString c) st)).
Proof.
  intros Hc. rewrite (unbind_string c st Hc). simpl.
  assert (G : existsb (matches c)
                (filter (fun b => negb (matches c b)) (bindings st)) = false).
  { induction (bindings st) as [|b r IH]; simpl; [reflexivity|].
    destruct (matches c b) eqn:E; simpl; [assumption|]. now rewrite E. }
  split; [|split].
  - intros ev <-. now apply silent_when_unbound.
  - intros ev N. apply dispatch_matching. simpl. now apply filter_other.
  - rewrite unbind_string by assumption. simpl.
    rewrite G, filter_none by assumption. reflexivity.
Qed.

(** X7.  [bind] appends: after a [bind] of a non-empty string combo, a
    keydown event does what it did before and then, when its combo is the
    new one, invokes the new binding; an event of any type with another
    combo does exactly what it did before. *)
Theorem bind_appends now rnd (c : string) (f : Callback) st :
  c <> "" ->
  exists added,
    snd (bind now rnd (VString c) (VFunction f) st)
    = setBindings (bindings st ++ [added]) st
    /\ combo added = c /\ callback added = f
    /\ (forall ev, type ev = keydown ->
                   snd (dispatch call ev (snd (bind now rnd (VString c) (VFunction f) st)))
                   = snd (dispatch call ev st)
                     ++ (if getComboFromEvent ev =? c
                         then keyActions call ev added else []))
    /\ (forall ev, getComboFromEvent ev <> c ->
                   snd (dispatch call ev (snd (bind now rnd (VString c) (VFunction f) st)))
                   = snd (dispatch call ev st)).
Proof.
  intros Hc. rewrite bind_accepts by assumption.
  eexists. split; [reflexivity|]. simpl. repeat split.
  - intros ev T. rewrite !(dispatch_keydown call) by assumption. simpl.
    destruct (getComboFromEvent ev =? "") eqn:E.
    + apply String.eqb_eq in E. rewrite E.
      destruct (String.eqb_spec "" c); [congruence | reflexivity].
    + rewrite filter_app, flat_map_app. f_equal. simpl.
      unfold matches. simpl.
      destruct (String.eqb_spec c (getComboFromEvent ev)),
        (String.eqb_spec (getComboFromEvent ev) c); try congruence;
        simpl; now rewrite ?app_nil_r.
  - intros ev N. apply dispatch_matching. simpl.
    rewrite filter_app. simpl. unfold matches at 2. simpl.
    destruct (String.eqb_spec c (getComboFromEvent ev)); [congruence|].
    apply app_nil_r.
Qed.

(** X8.  The cached modifier state is never read: what a dispatch does,
    and the bindings it leaves, are the same whatever the cached flags
    are. *)
Theorem modifierState_never_read ev st (m : ModifierState) :
  snd (dispatch call ev {| bindings := bindings st; modifierState := m |})
  = snd (dispatch call ev st)
  /\ bindings (fst (dispatch call ev {| bindings := bindings st; modifierState := m |}))
     = bindings (fst (dispatch call ev st)).
Proof.
  split; [|now rewrite !(dispatch_bindings call)].
  now apply dispatch_matching.
Qed.

Lemma dispatch_modifierState ev st :
  modifierState (fst (dispatch call ev st)) = updateModifiers ev (modifierState st).
Proof.
  unfold dispatch, handleKeyEvent, mousedownListener, handleMouseEvent, updateModifiers.
  destruct (type ev); simpl;
    repeat match goal with
           | |- context [if ?c then _ else _] => destruct c; simpl
           end; reflexivity.
Qed.

Lemma shift_updateModifiers ev (m : ModifierState) :
  shift (updateModifiers ev m)
  = if isShiftKey ev
    then match type ev with keydown => true | _ => false end
    else shift m.
Proof.
  unfold updateModifiers, isShiftKey.
  destruct (type ev); try reflexivity;
    destruct (String.eqb_spec (key ev) "Shift") as [E | N]; try reflexivity;
    repeat match goal with
           | |- context [if ?c then _ else _] => destruct c; simpl
           end; reflexivity.
Qed.

Lemma shift_kept (evs : list event) st :
  Forall (fun x => isShiftKey x = false) evs ->
  shift (modifierState (dispatchAll call evs st)) = shift (modifierState st).
Proof.
  intros A. revert st.
  induction A as [|x l Hx _ IH]; intros st; simpl; [reflexivity|].
  now rewrite IH, dispatch_modifierState, shift_updateModifiers, Hx.
Qed.

(** X9.  The cached shift flag follows the last event of the shift key:
    after a run of events it is [true] when the last keydown or keyup
    event with key ["Shift"] was a keydown, and [false] when it was a
    keyup. *)
Theorem shift_flag_tracks_last_shift_event (before after : list event) ev st :
  isShiftKey ev = true ->
  Forall (fun x => isShiftKey x = false) after ->
  shift (modifierState (dispatchAll call (before ++ ev :: after) st))
  = match type ev with keydown => true | _ => false end.
Proof.
  intros S A. revert st.
  induction before as [|x r IH]; intros st; simpl; [|apply IH].
  rewrite shift_kept by assumption.
  now rewrite dispatch_modifierState, shift_updateModifiers, S.
Qed.

End Composition.

(** A fresh id on the shortcuts of the examples. *)
Lemma bind_then_unbind_witness :
  unbind (VNumber (Num (clock + dice)))
    (snd (bind clock dice (VString "wheel_up") (VFunction "announce") shortcuts))
  = (true, shortcuts).
Proof.
  apply (proj2 (bind_then_unbind clock dice "wheel_up" "announce" shortcuts
                  ltac:(discriminate) ltac:(discriminate)
                  ltac:(intros x [<- | [<- | [<- | []]]]; discriminate))).
Defined.

(** A [bind] that draws 12, the id of the decrease shortcut. *)
Lemma unbind_after_id_collision_witness :
  exists added,
    bindings (snd (bind 10 2 (VString "wheel_up") (VFunction "announce") shortcuts))
    = bindings shortcuts ++ [added]
    /\ combo added = "wheel_up" /\ callback added = "announce" /\ id added = 12
    /\ fst (unbind (VNumber (Num 12))
              (snd (bind 10 2 (VString "wheel_up") (VFunction "announce") shortcuts)))
       = true
    /\ bindings (snd (unbind (VNumber (Num 12))
                        (snd (bind 10 2 (VString "wheel_up") (VFunction "announce")
                                shortcuts))))
       = [increase; reset; added].
Proof.
  apply (unbind_after_id_collision 10 2 "wheel_up" "announce" shortcuts
           [increase] [reset] decrease);
    first [discriminate | reflexivity | intros x [<- | []]; discriminate].
Defined.

(** Unbinding ["shift+."] from the shortcuts of the examples. *)
Lemma unbind_combo_silences_witness :
  snd (dispatch returnsFalse (shiftPress ">")
         (snd (unbind (VString "shift+.") shortcuts))) = []
  /\ snd (dispatch returnsFalse (shiftPress "<")
            (snd (unbind (VString "shift+.") shortcuts)))
     = snd (dispatch returnsFalse (shiftPress "<") shortcuts).
Proof.
  split.
  - apply (proj1 (unbind_combo_silences returnsFalse "shift+." shortcuts
                    ltac:(discriminate))).
    reflexivity.
  - apply (proj1 (proj2 (unbind_combo_silences returnsFalse "shift+." shortcuts
                           ltac:(discriminate)))).
    discriminate.
Defined.

(** A second binding of ["shift+,"]. *)
Lemma bind_appends_witness :
  exists added,
    snd (bind clock dice (VString "shift+,") (VFunction "announce") shortcuts)
    = setBindings (bindings shortcuts ++ [added]) shortcuts
    /\ snd (dispatch returnsFalse (shiftPress "<")
              (snd (bind clock dice (VString "shift+,") (VFunction "announce")
                      shortcuts)))
       = snd (dispatch returnsFalse (shiftPress "<") shortcuts)
         ++ keyActions returnsFalse (shiftPress "<") added
    /\ snd (dispatch returnsFalse (scroll 3)
              (snd (bind clock dice (VString "shift+,") (VFunction "announce")
                      shortcuts)))
       = snd (dispatch returnsFalse (scroll 3) shortcuts).
Proof.
  destruct (bind_appends returnsFalse clock dice "shift+," "announce" shortcuts
              ltac:(discriminate)) as (added & E & _ & _ & K & O).
  exists added. split; [exact E | split].
  - exact (K (shiftPress "<") eq_refl).
  - apply O. discriminate.
Defined.

(** The key [a], then the shift key down, then [b] and a scroll. *)
Lemma shift_flag_tracks_last_shift_event_witness :
  shift (modifierState
           (dispatchAll returnsFalse
              ([press "a"] ++ shiftPress "Shift" :: [shiftPress "B"; scroll 3])
              shortcuts))
  = true.
Proof.
  apply (shift_flag_tracks_last_shift_event returnsFalse
           [press "a"] [shiftPress "B"; scroll 3] (shiftPress "Shift") shortcuts).
  - reflexivity.
  - repeat constructor.
Defined.

(** ** Further facts: the shortcuts of the content script *)

Lemma bind_harmless (t : Content.stamp) (v : value Content.speedAction)
  (a : Content.speedAction) (st : state Content.speedAction) :
  harmless v = true ->
  exists r,
    bind (fst t) (snd t) v (VFunction a) st
    = (Return r, setBindings (bindings st ++ bound t v a) st).
Proof.
  unfold harmless, bound, bind, parseCombo. intros H.
  destruct v as [| |[]|[|z]|c| |]; simpl in *; try discriminate H;
    try (exists failure; rewrite app_nil_r; now destruct st).
  - destruct (z =? 0)%Z; simpl in *; [|discriminate H].
    exists failure. rewrite app_nil_r. now destruct st.
  - destruct (c =? ""); simpl; eexists; [|reflexivity].
    rewrite app_nil_r. now destruct st.
Qed.

Lemma bind_raises (t : Content.stamp) (v : value Content.speedAction)
  (a : Content.speedAction) (st : state Content.speedAction) :
  harmless v = false ->
  bind (fst t) (snd t) v (VFunction a) st = (Throw TypeError, st).
Proof.
  unfold harmless, bind, parseCombo. intros H.
  destruct v as [| |[]|[|z]|c| |]; simpl in *; try discriminate H; try reflexivity.
  - destruct (z =? 0)%Z; simpl in *; [discriminate H | reflexivity].
  - now rewrite orb_true_r in H.
Qed.

Lemma initializeShortcuts_harmless (s : Content.settings) (t1 t2 t3 : Content.stamp)
  (st : state Content.speedAction) :
  harmless (Content.increaseSpeedKey s) = true ->
  harmless (Content.decreaseSpeedKey s) = true ->
  harmless (Content.resetSpeedKey s) = true ->
  fst (Content.initializeShortcuts true s t1 t2 t3 st) = Return tt
  /\ map shortcutOf (bindings (snd (Content.initializeShortcuts true s t1 t2 t3 st)))
     = wanted s
  /\ modifierState (snd (Content.initializeShortcuts true s t1 t2 t3 st))
     = modifierState st.
Proof.
  intros H1 H2 H3. unfold Content.initializeShortcuts. cbn [negb].
  destruct (bind_harmless t1 _ Content.IncreaseSpeed (unbindAll st) H1) as (r1 & ->).
  match goal with
  | |- context [bind _ _ _ (VFunction Content.DecreaseSpeed) ?x] =>
      destruct (bind_harmless t2 _ Content.DecreaseSpeed x H2) as (r2 & ->)
  end.
  match goal with
  | |- context [bind _ _ _ (VFunction Content.ResetSpeed) ?x] =>
      destruct (bind_harmless t3 _ Content.ResetSpeed x H3) as (r3 & ->)
  end.
  simpl. repeat split.
  rewrite !map_app. unfold wanted, bound, shortcutOf. simpl.
  destruct (Content.increaseSpeedKey s) as [| | | |c1| |],
    (Content.decreaseSpeedKey s) as [| | | |c2| |],
    (Content.resetSpeedKey s) as [| | | |c3| |]; simpl;
    try destruct (c1 =? ""); try destruct (c2 =? ""); try destruct (c3 =? "");
    reflexivity.
Qed.

(** X10.  Without a video element [initializeShortcuts] leaves the
    registry as it is.  With one, and with settings that are falsy or
    strings, it replaces all bindings: whatever was bound before, the
    registry then holds exactly one binding for each setting that is a
    non-empty string, with that string as combo, in the order increase,
    decrease, reset; the cached modifier state is kept. *)
Theorem initializeShortcuts_rebinds (s : Content.settings) (t1 t2 t3 : Content.stamp)
  (st : state Content.speedAction) :
  Content.initializeShortcuts false s t1 t2 t3 st = (Return tt, st)
  /\ (harmless (Content.increaseSpeedKey s) = true ->
      harmless (Content.decreaseSpeedKey s) = true ->
      harmless (Content.resetSpeedKey s) = true ->
      fst (Content.initializeShortcuts true s t1 t2 t3 st) = Return tt
      /\ map shortcutOf (bindings (snd (Content.initializeShortcuts true s t1 t2 t3 st)))
         = wanted s
      /\ modifierState (snd (Content.initializeShortcuts true s t1 t2 t3 st))
         = modifierState st).
Proof.
  split; [reflexivity | apply initializeShortcuts_harmless].
Qed.

(** X11.  A stored shortcut that is truthy and not a string makes
    [initializeShortcuts] fail with a [TypeError] after it has removed
    the old bindings: the registry is left with the bindings of the
    settings that come before the offending one and nothing else. *)
Theorem initializeShortcuts_corrupt_setting (s : Content.settings)
  (t1 t2 t3 : Content.stamp) (st : state Content.speedAction) :
  (harmless (Content.increaseSpeedKey s) = false ->
   Content.initializeShortcuts true s t1 t2 t3 st = (Throw TypeError, unbindAll st))
  /\ (harmless (Content.increaseSpeedKey s) = true ->
      harmless (Content.decreaseSpeedKey s) = false ->
      fst (Content.initializeShortcuts true s t1 t2 t3 st) = Throw TypeError
      /\ map shortcutOf (bindings (snd (Content.initializeShortcuts true s t1 t2 t3 st)))
         = wanted {| Content.increaseSpeedKey := Content.increaseSpeedKey s;
                     Content.decreaseSpeedKey := VUndefined;
                     Content.resetSpeedKey := VUndefined |})
  /\ (harmless (Content.increaseSpeedKey s) = true ->
      harmless (Content.decreaseSpeedKey s) = true ->
      harmless (Content.resetSpeedKey s) = false ->
      fst (Content.initializeShortcuts true s t1 t2 t3 st) = Throw TypeError
      /\ map shortcutOf (bindings (snd (Content.initializeShortcuts true s t1 t2 t3 st)))
         = wanted {| Content.increaseSpeedKey := Content.increaseSpeedKey s;
                     Content.decreaseSpeedKey := Content.decreaseSpeedKey s;
                     Content.resetSpeedKey := VUndefined |}).
Proof.
  unfold Content.initializeShortcuts. cbn [negb].
  split; [|split].
  - intros H1. now rewrite bind_raises.
  - intros H1 H2.
    destruct (bind_harmless t1 _ Content.IncreaseSpeed (unbindAll st) H1) as (r1 & ->).
    rewrite bind_raises by assumption. simpl. split; [reflexivity|].
    unfold wanted, bound, shortcutOf. simpl.
    destruct (Content.increaseSpeedKey s) as [| | | |c1| |]; simpl;
      try destruct (c1 =? ""); reflexivity.
  - intros H1 H2 H3.
    destruct (bind_harmless t1 _ Content.IncreaseSpeed (unbindAll st) H1) as (r1 & ->).
    match goal with
    | |- context [bind _ _ _ (VFunction Content.DecreaseSpeed) ?x] =>
        destruct (bind_harmless t2 _ Content.DecreaseSpeed x H2) as (r2 & ->)
    end.
    rewrite bind_raises by assumption. simpl. split; [reflexivity|].
    rewrite !map_app. unfold wanted, bound, shortcutOf. simpl.
    destruct (Content.increaseSpeedKey s) as [| | | |c1| |],
      (Content.decreaseSpeedKey s) as [| | | |c2| |]; simpl;
      try destruct (c1 =? ""); try destruct (c2 =? ""); reflexivity.
Qed.

Lemma wanted_not_empty (s : Content.settings) (p : string * Content.speedAction) :
  In p (wanted s) -> fst p <> "".
Proof.
  unfold wanted. simpl.
  destruct (Content.increaseSpeedKey s) as [| | | |c1| |],
    (Content.decreaseSpeedKey s) as [| | | |c2| |],
    (Content.resetSpeedKey s) as [| | | |c3| |]; simpl;
    try destruct (String.eqb_spec c1 ""); try destruct (String.eqb_spec c2 "");
    try destruct (String.eqb_spec c3 ""); simpl; intuition (subst; simpl; auto).
Qed.

Lemma shortcutOf_filter {Callback : Type} (c : string) (bs : list (binding Callback)) :
  map snd (filter (fun p => fst p =? c) (map shortcutOf bs))
  = map callback (filter (matches c) bs).
Proof.
  induction bs as [|b r IH]; simpl; [reflexivity|].
  unfold matches at 1. destruct (combo b =? c); simpl; now rewrite IH.
Qed.

Lemma shortcutOf_existsb {Callback : Type} (c : string) (bs : list (binding Callback)) :
  existsb (fun p => fst p =? c) (map shortcutOf bs) = existsb (matches c) bs.
Proof.
  induction bs as [|b r IH]; simpl; [reflexivity|]. now rewrite IH.
Qed.

Lemma filter_existsb {A : Type} (p : A -> bool) (l : list A) :
  match filter p l with [] => false | _ => true end = existsb p l.
Proof.
  induction l as [|a r IH]; simpl; [reflexivity|].
  destruct (p a); [reflexivity | exact IH].
Qed.

(** When every callback returns [false], a keydown dispatch suppresses
    exactly when it invokes something. *)
Lemma prevented_speedCall (ev : event) (l : list (binding Content.speedAction)) :
  prevented (flat_map (keyActions Content.speedCall ev) l)
  = match l with [] => false | _ => true end.
Proof.
  now destruct l.
Qed.

(** X12.  What a key press does once the shortcuts are initialised:
    with a video element and settings that are falsy or strings, a
    keydown event invokes the callbacks of exactly those settings that
    equal its canonical combo, in the order increase, decrease, reset,
    whatever was bound before, and the default action of the event is
    prevented exactly when some setting equals the combo. *)
Theorem key_shortcuts_respond (s : Content.settings) (t1 t2 t3 : Content.stamp)
  (st : state Content.speedAction) (ev : event) :
  harmless (Content.increaseSpeedKey s) = true ->
  harmless (Content.decreaseSpeedKey s) = true ->
  harmless (Content.resetSpeedKey s) = true ->
  type ev = keydown ->
  map callback
    (invoked (snd (dispatch Content.speedCall ev
                     (snd (Content.initializeShortcuts true s t1 t2 t3 st)))))
  = map snd (filter (fun p => fst p =? getComboFromEvent ev) (wanted s))
  /\ prevented (snd (dispatch Content.speedCall ev
                       (snd (Content.initializeShortcuts true s t1 t2 t3 st))))
     = existsb (fun p => fst p =? getComboFromEvent ev) (wanted s).
Proof.
  intros H1 H2 H3 T.
  destruct (initializeShortcuts_harmless s t1 t2 t3 st H1 H2 H3) as (_ & W & _).
  rewrite <- W, shortcutOf_filter, shortcutOf_existsb.
  rewrite invoked_keydown, dispatch_keydown by assumption.
  destruct (String.eqb_spec (getComboFromEvent ev) "") as [E | E].
  - assert (X : existsb (matches (getComboFromEvent ev))
                  (bindings (snd (Content.initializeShortcuts true s t1 t2 t3 st)))
                = false).
    { apply not_true_is_false. intros X.
      rewrite <- shortcutOf_existsb, W in X.
      apply existsb_exists in X as (p & Hp & Ep).
      apply String.eqb_eq in Ep. apply wanted_not_empty in Hp. congruence. }
    rewrite X. split; [|reflexivity].
    clear - X. induction (bindings _) as [|b r IH]; simpl in *; [reflexivity|].
    apply orb_false_iff in X as [X1 X2]. rewrite X1. now apply IH.
  - split; [reflexivity|].
    rewrite prevented_speedCall. apply filter_existsb.
Qed.

(** The default settings, on an empty registry and on one with stale
    bindings. *)
Lemma initializeShortcuts_rebinds_witness :
  map shortcutOf
    (bindings (snd (Content.initializeShortcuts true Content.DEFAULT_SETTINGS
                      (clock, dice) (clock, dice) (clock, dice) initial)))
  = [("shift+.", Content.IncreaseSpeed); ("shift+,", Content.DecreaseSpeed);
     ("shift+?", Content.ResetSpeed)]
  /\ map shortcutOf
       (bindings (snd (Content.initializeShortcuts true
                         {| Content.increaseSpeedKey := VString "wheel_up";
                            Content.decreaseSpeedKey := VString "";
                            Content.resetSpeedKey := VUndefined |}
                         (clock, dice) (clock, dice) (clock, dice)
                         (snd (Content.initializeShortcuts true Content.DEFAULT_SETTINGS
                                 (clock, dice) (clock, dice) (clock, dice) initial)))))
     = [("wheel_up", Content.IncreaseSpeed)].
Proof.
  split.
  - apply (proj2 (initializeShortcuts_rebinds Content.DEFAULT_SETTINGS
                    (clock, dice) (clock, dice) (clock, dice) initial));
      reflexivity.
  - apply (proj2 (initializeShortcuts_rebinds
                    {| Content.increaseSpeedKey := VString "wheel_up";
                       Content.decreaseSpeedKey := VString "";
                       Content.resetSpeedKey := VUndefined |}
                    (clock, dice) (clock, dice) (clock, dice) _));
      reflexivity.
Defined.

(** A decrease shortcut stored as the number 5. *)
Lemma initializeShortcuts_corrupt_setting_witness :
  fst (Content.initializeShortcuts true
         {| Content.increaseSpeedKey := VString "shift+.";
            Content.decreaseSpeedKey := VNumber (Num 5);
            Content.resetSpeedKey := VString "shift+?" |}
         (clock, dice) (clock, dice) (clock, dice) initial)
  = Throw TypeError
  /\ map shortcutOf
       (bindings (snd (Content.initializeShortcuts true
                         {| Content.increaseSpeedKey := VString "shift+.";
                            Content.decreaseSpeedKey := VNumber (Num 5);
                            Content.resetSpeedKey := VString "shift+?" |}
                         (clock, dice) (clock, dice) (clock, dice) initial)))
     = [("shift+.", Content.IncreaseSpeed)].
Proof.
  apply (proj1 (proj2 (initializeShortcuts_corrupt_setting
                         {| Content.increaseSpeedKey := VString "shift+.";
                            Content.decreaseSpeedKey := VNumber (Num 5);
                            Content.resetSpeedKey := VString "shift+?" |}
                         (clock, dice) (clock, dice) (clock, dice) initial)));
    reflexivity.
Defined.

(** The default settings answer shift with [">"], ["<"] and ["?"]; a
    press of [a] does nothing. *)
Lemma key_shortcuts_respond_witness :
  map callback
    (invoked (snd (dispatch Content.speedCall (shiftPress ">")
                     (snd (Content.initializeShortcuts true Content.DEFAULT_SETTINGS
                             (clock, dice) (clock, dice) (clock, dice) initial)))))
  = [Content.IncreaseSpeed]
  /\ map callback
       (invoked (snd (dispatch Content.speedCall (shiftPress "<")
                        (snd (Content.initializeShortcuts true Content.DEFAULT_SETTINGS
                                (clock, dice) (clock, dice) (clock, dice) initial)))))
     = [Content.DecreaseSpeed]
  /\ map callback
       (invoked (snd (dispatch Content.speedCall (shiftPress "?")
                        (snd (Content.initializeShortcuts true Content.DEFAULT_SETTINGS
                                (clock, dice) (clock, dice) (clock, dice) initial)))))
     = [Content.ResetSpeed]
  /\ prevented
       (snd (dispatch Content.speedCall (press "a")
               (snd (Content.initializeShortcuts true Content.DEFAULT_SETTINGS
                       (clock, dice) (clock, dice) (clock, dice) initial))))
     = false.
Proof.
  split; [|split; [|split]].
  - apply (proj1 (key_shortcuts_respond Content.DEFAULT_SETTINGS
                    (clock, dice) (clock, dice) (clock, dice) initial
                    (shiftPress ">") eq_refl eq_refl eq_refl eq_refl)).
  - apply (proj1 (key_shortcuts_respond Content.DEFAULT_SETTINGS
                    (clock, dice) (clock, dice) (clock, dice) initial
                    (shiftPress "<") eq_refl eq_refl eq_refl eq_refl)).
  - apply (proj1 (key_shortcuts_respond Content.DEFAULT_SETTINGS
                    (clock, dice) (clock, dice) (clock, dice) initial
                    (shiftPress "?") eq_refl eq_refl eq_refl eq_refl)).
  - apply (proj2 (key_shortcuts_respond Content.DEFAULT_SETTINGS
                    (clock, dice) (clock, dice) (clock, dice) initial
                    (press "a") eq_refl eq_refl eq_refl eq_refl)).
Defined.
(** ** Further facts: the settings page *)

Lemma format_join (l : list string) :
  l <> [] ->
  Forall (fun x => hasPlus x = false) l ->
  join_plus l <> "" ->
  Settings.formatKeyCombination (join_plus l)
  = Settings.join_display (map Settings.formatPart l).
Proof.
  intros N F E. unfold Settings.formatKeyCombination.
  destruct (String.eqb_spec (join_plus l) ""); [contradiction|].
  now rewrite split_join.
Qed.

Lemma display_modifiers (ev : event) (x : string) :
  Settings.join_display (map Settings.formatPart (modifierKeys ev) ++ [x])
  = (displayPrefix ev ++ x)%string.
Proof.
  unfold modifierKeys, displayPrefix.
  destruct (shiftKey ev), (ctrlKey ev), (altKey ev), (metaKey ev); reflexivity.
Qed.

(** X13.  What the settings page shows for the combo of an event: the
    modifiers as [Shift + ], [Ctrl + ], [Alt + ], [Cmd + ], in this
    order, followed by the formatted primary token, provided that token
    is not empty and holds no ["+"]. *)
Theorem display_of_event_combo (ev : event) (tok : string) :
  primaryToken ev = Some tok ->
  tok <> "" ->
  hasPlus tok = false ->
  Settings.formatKeyCombination (getComboFromEvent ev)
  = (displayPrefix ev ++ Settings.formatPart tok)%string.
Proof.
  intros P N Hp.
  rewrite (getCombo_token ev tok P), format_join.
  - rewrite map_app. apply display_modifiers.
  - now destruct (modifierKeys ev).
  - apply Forall_app. split; [|now repeat constructor].
    pose proof (modifierKeys_plain ev) as F. revert F.
    apply Forall_impl. now intros x [Hx _].
  - rewrite join_modifiers. now apply append_not_empty.
Qed.

(** Shift with [">"] and ctrl with [a]. *)
Lemma display_of_event_combo_witness :
  Settings.formatKeyCombination (getComboFromEvent (shiftPress ">")) = "Shift + >"
  /\ Settings.formatKeyCombination
       (getComboFromEvent (keyEvent false true false false "a")) = "Ctrl + A".
Proof.
  split.
  - apply (display_of_event_combo (shiftPress ">") "."); first [reflexivity | discriminate].
  - apply (display_of_event_combo (keyEvent false true false false "a") "a");
      first [reflexivity | discriminate].
Defined.

Lemma formatPart_mouse (z : Z) :
  Settings.formatPart ("mouse" ++ numberToString z)
  = ("Mouse " ++ numberToString z)%string.
Proof.
  assert (S : hasWhiteSpace ("mouse" ++ numberToString z) = false).
  { unfold hasWhiteSpace. rewrite anyChar_append, anyChar_numberToString; [reflexivity|].
    intros c; each_ascii c; cbv; congruence. }
  unfold Settings.formatPart.
  destruct (no_space_ends _ S) as [S1 S2].
  rewrite trim_fixed by assumption.
  generalize (numberToString z). intros n. destruct n; reflexivity.
Qed.

(** X14.  What the settings page shows for pointer shortcuts: a wheel
    event is shown as its modifiers followed by [Wheel Up] or
    [Wheel Down], a mousedown event as its modifiers followed by
    [Middle Click] for button 1 and by [Mouse] and the button index plus
    one otherwise. *)
Theorem display_of_pointer_combo (ev : event) :
  (type ev = wheel ->
   Settings.formatKeyCombination (getComboFromEvent ev)
   = (displayPrefix ev
        ++ (if negative (deltaY ev) then "Wheel Up" else "Wheel Down"))%string)
  /\ (type ev = mousedown ->
      Settings.formatKeyCombination (getComboFromEvent ev)
      = (displayPrefix ev
           ++ (if (button ev =? 1)%Z then "Middle Click"
               else "Mouse " ++ numberToString (button ev + 1)))%string).
Proof.
  split; intros T;
    destruct (pointer_token_plain ev) as (tok & P & N & Hp & _); auto;
    rewrite (getCombo_token ev tok P), format_join.
  - rewrite map_app.
    change (map Settings.formatPart [tok]) with [Settings.formatPart tok].
    rewrite display_modifiers. f_equal.
    unfold primaryToken in P. rewrite T in P. injection P as <-.
    now destruct (negative (deltaY ev)).
  - now destruct (modifierKeys ev).
  - apply Forall_app. split; [|now repeat constructor].
    pose proof (modifierKeys_plain ev) as F. revert F.
    apply Forall_impl. now intros x [Hx _].
  - rewrite join_modifiers. now apply append_not_empty.
  - rewrite map_app.
    change (map Settings.formatPart [tok]) with [Settings.formatPart tok].
    rewrite display_modifiers. f_equal.
    unfold primaryToken in P. rewrite T in P. injection P as <-.
    destruct (button ev =? 1)%Z; [reflexivity | apply formatPart_mouse].
  - now destruct (modifierKeys ev).
  - apply Forall_app. split; [|now repeat constructor].
    pose proof (modifierKeys_plain ev) as F. revert F.
    apply Forall_impl. now intros x [Hx _].
  - rewrite join_modifiers. now apply append_not_empty.
Qed.

(** Scrolling down with alt, the middle button, the right button with
    shift. *)
Lemma display_of_pointer_combo_witness :
  Settings.formatKeyCombination
    (getComboFromEvent (wheelEvent false false true false 3)) = "Alt + Wheel Down"
  /\ Settings.formatKeyCombination (getComboFromEvent (click 1)) = "Middle Click"
  /\ Settings.formatKeyCombination
       (getComboFromEvent (mouseEvent true false false false 2)) = "Shift + Mouse 3".
Proof.
  split; [|split].
  - apply (proj1 (display_of_pointer_combo (wheelEvent false false true false 3))).
    reflexivity.
  - apply (proj2 (display_of_pointer_combo (click 1))). reflexivity.
  - apply (proj2 (display_of_pointer_combo (mouseEvent true false false false 2))).
    reflexivity.
Defined.

(** *** Recording a shortcut *)

Lemma recordable_more (l1 l2 : list Settings.input) (c : string) :
  recordable l1 c -> recordable (l1 ++ l2) c.
Proof.
  intros (N & i & e & I & R). split; [assumption|].
  exists i, e. split; [apply in_or_app; now left | assumption].
Qed.

Lemma recordable_last (l : list Settings.input) (i : Settings.input) (e : event) :
  Settings.eventOf i = Some e ->
  (getComboFromEvent e =? "") = false ->
  (forall k, i = Settings.KeyDown k -> toLowerCase (key k) <> "escape") ->
  recordable (l ++ [i]) (getComboFromEvent e).
Proof.
  intros E N K. split; [now apply String.eqb_neq|].
  exists i, e. repeat split; auto. apply in_or_app. right. now left.
Qed.

Ltac six_goals := split; [|split; [|split; [|split; [|split]]]].

Ltac finish_step :=
  simpl; intros;
  try match goal with
      | H : Some _ = Some _ |- _ => injection H as <-
      | H : _ = _ \/ False |- _ => destruct H as [<- | []]
      end;
  first [congruence | contradiction | lia | now auto].

(** One input, for a property [R] of combos that holds of the combo of
    the input when it is not empty and the input is not a press of the
    escape key: the session stays settled, a pending or saved combo has
    [R], at most one combo is saved and saving ends the session, and a
    finished session ignores the input. *)
Lemma react_sound (R : string -> Prop) (i : Settings.input) (s : Settings.session) :
  settled s ->
  (forall c, Settings.recordTimeout s = Some c -> R c) ->
  (forall e, Settings.eventOf i = Some e ->
             (getComboFromEvent e =? "") = false ->
             (forall k, i = Settings.KeyDown k -> toLowerCase (key k) <> "escape") ->
             R (getComboFromEvent e)) ->
  settled (fst (Settings.react i s))
  /\ (forall c, Settings.recordTimeout (fst (Settings.react i s)) = Some c -> R c)
  /\ (forall c, In c (Settings.saves (snd (Settings.react i s))) -> R c)
  /\ (Settings.saves (snd (Settings.react i s)) <> [] ->
      Settings.isListening (fst (Settings.react i s)) = false)
  /\ (List.length (Settings.saves (snd (Settings.react i s))) <= 1)%nat
  /\ (Settings.isListening s = false -> Settings.react i s = (s, [])).
Proof.
  intros G P' N. destruct s as [[] p]; unfold settled in *; simpl in *.
  2:{ rewrite (G eq_refl) in *. destruct i; simpl; six_goals; finish_step. }
  clear G.
  destruct i as [e | e | e onButton | | elsewhere]; simpl;
    unfold Settings.keydownListener, Settings.wheelListener,
      Settings.mousedownListener, Settings.recordKeyPress, Settings.recordWheel,
      Settings.recordMouseButton, Settings.timerFires,
      Settings.documentClickListener, Settings.finishRecording; simpl.
  - destruct (String.eqb_spec (toLowerCase (key e)) "escape") as [E | E]; simpl;
      [six_goals; finish_step|].
    assert (R0 : (getComboFromEvent e =? "") = false -> R (getComboFromEvent e)).
    { intros C. apply (N e); auto. now intros k [= <-]. }
    destruct ((toLowerCase (key e) =? "shift") || (toLowerCase (key e) =? "control")
              || (toLowerCase (key e) =? "alt")); simpl;
      [six_goals; finish_step|].
    destruct (getComboFromEvent e =? "") eqn:C; simpl; six_goals; finish_step.
  - assert (R0 : (getComboFromEvent e =? "") = false -> R (getComboFromEvent e)).
    { intros C. apply (N e); auto. discriminate. }
    destruct (getComboFromEvent e =? "") eqn:C; simpl; rewrite ?C; simpl;
      six_goals; finish_step.
  - assert (R0 : (getComboFromEvent e =? "") = false -> R (getComboFromEvent e)).
    { intros C. apply (N e); auto. discriminate. }
    destruct (button e =? 1)%Z, onButton; simpl;
      destruct (getComboFromEvent e =? "") eqn:C; simpl; rewrite ?C; simpl;
      six_goals; finish_step.
  - destruct p as [c |]; simpl; [|six_goals; finish_step].
    destruct (c =? "") eqn:C; simpl; six_goals; finish_step.
  - destruct elsewhere; simpl; six_goals; finish_step.
Qed.

(** The same with the inputs the session has had. *)
Lemma react_step (l : list Settings.input) (i : Settings.input) (s : Settings.session) :
  settled s ->
  (forall c, Settings.recordTimeout s = Some c -> recordable l c) ->
  settled (fst (Settings.react i s))
  /\ (forall c, Settings.recordTimeout (fst (Settings.react i s)) = Some c ->
                recordable (l ++ [i]) c)
  /\ (forall c, In c (Settings.saves (snd (Settings.react i s))) ->
                recordable (l ++ [i]) c)
  /\ (Settings.saves (snd (Settings.react i s)) <> [] ->
      Settings.isListening (fst (Settings.react i s)) = false)
  /\ (List.length (Settings.saves (snd (Settings.react i s))) <= 1)%nat
  /\ (Settings.isListening s = false -> Settings.react i s = (s, [])).
Proof.
  intros G P. apply react_sound; [assumption | |].
  - intros c Hc. apply recordable_more. now apply P.
  - intros e E C K. now apply (recordable_last l i e).
Qed.

Lemma saves_app (t1 t2 : list Settings.effect) :
  Settings.saves (t1 ++ t2) = Settings.saves t1 ++ Settings.saves t2.
Proof.
  induction t1 as [|[] r IH]; simpl; now rewrite ?IH.
Qed.

Lemma record_cons (i : Settings.input) (r : list Settings.input) (s : Settings.session) :
  Settings.record (i :: r) s
  = (fst (Settings.record r (fst (Settings.react i s))),
     snd (Settings.react i s) ++ snd (Settings.record r (fst (Settings.react i s)))).
Proof.
  simpl. destruct (Settings.react i s) as [s1 t1]. simpl.
  now destruct (Settings.record r s1).
Qed.

Lemma record_finished (inputs : list Settings.input) (s : Settings.session) :
  settled s -> Settings.isListening s = false -> Settings.record inputs s = (s, []).
Proof.
  intros G L. induction inputs as [|i r IH]; [reflexivity|].
  rewrite record_cons.
  destruct (react_step [] i s G) as (_ & _ & _ & _ & _ & F).
  { intros c Hc. rewrite (G L) in Hc. discriminate. }
  rewrite (F L). simpl. now rewrite IH.
Qed.

(** A run of inputs keeps what one input keeps. *)
Lemma record_run (inputs l : list Settings.input) (s : Settings.session) :
  settled s ->
  (forall c, Settings.recordTimeout s = Some c -> recordable l c) ->
  settled (fst (Settings.record inputs s))
  /\ (forall c, In c (Settings.saves (snd (Settings.record inputs s))) ->
                recordable (l ++ inputs) c)
  /\ (List.length (Settings.saves (snd (Settings.record inputs s))) <= 1)%nat
  /\ (Settings.saves (snd (Settings.record inputs s)) <> [] ->
      Settings.isListening (fst (Settings.record inputs s)) = false).
Proof.
  revert l s. induction inputs as [|i r IH]; intros l s G P.
  - simpl. split; [assumption | split; [intros c [] | split; [lia | congruence]]].
  - rewrite record_cons. simpl.
    destruct (react_step l i s G P) as (G1 & P1 & S1 & F1 & L1 & _).
    destruct (IH (l ++ [i]) (fst (Settings.react i s)) G1 P1) as (G2 & S2 & L2 & F2).
    rewrite <- app_assoc in S2. simpl in S2.
    rewrite saves_app.
    destruct (Settings.saves (snd (Settings.react i s))) as [|c0 t] eqn:E.
    + simpl. split; [assumption | split; [assumption | split; assumption]].
    + assert (L : Settings.isListening (fst (Settings.react i s)) = false)
        by (apply F1; discriminate).
      rewrite (record_finished r _ G1 L) in *.
      simpl. rewrite app_nil_r.
      split; [assumption | split; [|split; [assumption | now intros _]]].
      intros c Hc. change (l ++ i :: r) with (l ++ [i] ++ r).
      rewrite app_assoc. apply recordable_more. now apply S1.
Qed.

(** *** All the calls of the page *)
















Lemma wanted_head (s : Content.settings) (c : string) :
  Content.increaseSpeedKey s = VString c -> c <> "" ->
  exists rest, wanted s = (c, Content.IncreaseSpeed) :: rest.
Proof.
  intros E N. unfold wanted. simpl. rewrite E.
  destruct (String.eqb_spec c ""); [contradiction|]. simpl. eauto.
Qed.

(** X16.  A recorded shortcut answers the input that recorded it.  When
    the settings page, listening, saves a combo from a key press, a wheel
    event or a press of a mouse button other than the primary one, and
    the content script initialises its shortcuts with that combo as the
    increase shortcut, then the same event invokes the increase callback
    first. *)
Theorem recorded_shortcut_replays (i : Settings.input) (e : event) (c : string)
  (s : Content.settings) (t1 t2 t3 : Content.stamp) (st : state Content.speedAction) :
  Settings.eventOf i = Some e ->
  typed i = true ->
  (type e = mousedown -> button e <> 0) ->
  Settings.saves (snd (Settings.record [i; Settings.Timer] Settings.listening)) = [c] ->
  Content.increaseSpeedKey s = VString c ->
  harmless (Content.decreaseSpeedKey s) = true ->
  harmless (Content.resetSpeedKey s) = true ->
  c = getComboFromEvent e
  /\ exists b rest,
      invoked (snd (dispatch Content.speedCall e
                      (snd (Content.initializeShortcuts true s t1 t2 t3 st))))
      = b :: rest
      /\ combo b = c /\ callback b = Content.IncreaseSpeed.
Proof.
  intros Ev Ty B Sv Inc H2 H3.
  destruct (record_run [i; Settings.Timer] [] Settings.listening)
    as (_ & R & _ & _); [intros _; reflexivity | intros x [=] |].
  destruct (R c) as (N & i' & e' & I & Ev' & C & _); [rewrite Sv; now left|].
  assert (e' = e) as ->.
  { destruct I as [<- | [<- | []]]; [congruence | discriminate]. }
  split; [now symmetry|].
  assert (H1 : harmless (Content.increaseSpeedKey s) = true)
    by (rewrite Inc; apply orb_true_r).
  destruct (initializeShortcuts_harmless s t1 t2 t3 st H1 H2 H3) as (_ & W & _).
  destruct (wanted_head s c Inc N) as (rest & Wh). rewrite Wh in W.
  destruct (bindings (snd (Content.initializeShortcuts true s t1 t2 t3 st)))
    as [|b bs] eqn:Bs; [discriminate|].
  unfold shortcutOf in W. simpl in W. injection W as Hc Ha _.
  assert (M : matches (getComboFromEvent e) b = true).
  { unfold matches. apply String.eqb_eq. congruence. }
  assert (T : type e = keydown \/ type e = wheel \/ type e = mousedown).
  { destruct i; simpl in *; try discriminate; injection Ev as ->;
      destruct (type e); try discriminate; auto. }
  destruct T as [T | [T | T]].
  - rewrite (invoked_keydown Content.speedCall) by assumption.
    destruct (String.eqb_spec (getComboFromEvent e) ""); [congruence|].
    rewrite Bs. simpl. rewrite M. eauto.
  - rewrite (invoked_wheel Content.speedCall) by assumption.
    rewrite Bs. simpl. rewrite M. simpl. eauto.
  - rewrite (invoked_mousedown Content.speedCall) by assumption.
    destruct (Z.eqb_spec (button e) 0); [now destruct (B T)|].
    rewrite Bs. simpl. rewrite M. simpl. eauto.
Qed.

(** Recording ctrl with [a], scrolling up with shift, and the middle
    button. *)
Lemma recorded_shortcut_replays_witness :
  (exists b rest,
      invoked (snd (dispatch Content.speedCall (keyEvent false true false false "a")
                      (snd (Content.initializeShortcuts true
                              {| Content.increaseSpeedKey := VString "ctrl+a";
                                 Content.decreaseSpeedKey := VString "shift+,";
                                 Content.resetSpeedKey := VString "shift+?" |}
                              (clock, dice) (clock, dice) (clock, dice) initial))))
      = b :: rest
      /\ combo b = "ctrl+a" /\ callback b = Content.IncreaseSpeed)
  /\ (exists b rest,
         invoked (snd (dispatch Content.speedCall (click 1)
                         (snd (Content.initializeShortcuts true
                                 {| Content.increaseSpeedKey := VString "middle_click";
                                    Content.decreaseSpeedKey := VString "shift+,";
                                    Content.resetSpeedKey := VString "shift+?" |}
                                 (clock, dice) (clock, dice) (clock, dice) initial))))
         = b :: rest
         /\ combo b = "middle_click" /\ callback b = Content.IncreaseSpeed).
Proof.
  split.
  - apply (recorded_shortcut_replays
             (Settings.KeyDown (keyEvent false true false false "a"))
             (keyEvent false true false false "a") "ctrl+a"
             {| Content.increaseSpeedKey := VString "ctrl+a";
                Content.decreaseSpeedKey := VString "shift+,";
                Content.resetSpeedKey := VString "shift+?" |}
             (clock, dice) (clock, dice) (clock, dice) initial);
      first [reflexivity | discriminate].
  - apply (recorded_shortcut_replays
             (Settings.MouseDown (click 1) true) (click 1) "middle_click"
             {| Content.increaseSpeedKey := VString "middle_click";
                Content.decreaseSpeedKey := VString "shift+,";
                Content.resetSpeedKey := VString "shift+?" |}
             (clock, dice) (clock, dice) (clock, dice) initial);
      first [reflexivity | discriminate].
Defined.

(** X17.  A shortcut recorded from the primary mouse button never
    fires.  The settings page, listening, saves the combo of a press of
    the primary button away from the button being bound, the modifier
    prefix followed by ["mouse1"]; but the key handler does not dispatch
    presses of the primary button: for every registry, whatever is bound,
    such an event invokes nothing and leaves the state as it is. *)
Theorem primary_click_shortcut_is_dead (e : event) :
  type e = mousedown ->
  button e = 0 ->
  Settings.saves
    (snd (Settings.record [Settings.MouseDown e false] Settings.listening))
  = [getComboFromEvent e]
  /\ getComboFromEvent e = (modifierPrefix e ++ "mouse1")%string
  /\ (forall (Callback : Type) (call : Callback -> event -> value Callback)
             (st : state Callback),
         dispatch call e st = (st, [])).
Proof.
  intros T B.
  assert (C : getComboFromEvent e = (modifierPrefix e ++ "mouse1")%string).
  { rewrite getCombo_mouse by assumption. now rewrite B. }
  split; [|split; [assumption|]].
  - simpl. unfold Settings.mousedownListener, Settings.recordMouseButton. simpl.
    rewrite B. simpl.
    rewrite (getCombo_pointer_not_empty e) by auto. reflexivity.
  - intros Callback call st. unfold dispatch, mousedownListener.
    now rewrite T, B.
Qed.

(** A click with the primary button while ["mouse1"] is bound. *)
Lemma primary_click_shortcut_is_dead_witness :
  Settings.saves
    (snd (Settings.record [Settings.MouseDown (click 0) false] Settings.listening))
  = ["mouse1"]
  /\ dispatch returnsFalse (click 0) (registryOf [mkBinding 18 "mouse1" "increase"])
     = (registryOf [mkBinding 18 "mouse1" "increase"], []).
Proof.
  destruct (primary_click_shortcut_is_dead (click 0) eq_refl eq_refl) as (S & _ & D).
  split; [exact S | apply D].
Defined.

End KeyHandler.
